(** * mlstorage_server.mldb : the experiment store over a MongoDB collection

    A shallow embedding of [src/mlstorage_server/mldb.py].

    - An experiment document is a Python [dict] with string keys: a
      [gmap string value].  Equality of two such maps is equality of their
      contents, as Python's [==] on dicts.  The helpers that change a dict in
      place are only ever handed a fresh copy ([dict(doc_fields or ())]) or a
      document just read from the database, so they are functions here.
    - The collection is the list of stored records in natural (insertion)
      order, each record being its primary key [_id] and its other fields.
    - Every method of [MLDB] is a computation in a state-and-exception monad
      over the store: the collection, the indexes, the log of the commands
      sent to the database and the [_indexes_ensured] flag.  A method runs
      from its first [await] to its last without another caller in between.
    - [datetime.utcnow()] is an argument of the methods that read the clock.
    - [_mark_delete] is recursive without a bound of its own: it takes the
      number of nested calls the interpreter allows, and raises
      [RecursionError] beyond.
    - An asynchronous generator is the list of what it yields, the
      collection staying as it is while the caller iterates.
    - The functions of [mlstorage_server.schema] ([validate_experiment_doc],
      [validate_experiment_id]) are not part of the file: they are parameters
      of the development.
    - The database answers the plain queries, payloads and documents as
      written out below; what it makes of the others (further operators,
      dotted paths, names the driver refuses) is the [engine], a parameter
      as well. *)

From stdpp Require Import gmap strings list fin_maps sorting.
From Stdlib Require Import ZArith Ascii.

Open Scope string_scope.

Set Warnings "-register-all".
Set Default Proof Using "Type".

(** Membership in a list given by its elements. *)
Ltac listed :=
  repeat first [ apply list_elem_of_here | apply list_elem_of_further ].

Ltac not_listed :=
  let H := fresh "Hin" in
  intros H;
  repeat (apply elem_of_cons in H as [H|H]; [discriminate H|]);
  by apply elem_of_nil in H.

(** ** Values held by a document (BSON values) *)

(** An ObjectId, seen as the number its twelve bytes spell. *)
Definition oid := N.

Inductive value : Type :=
| VNull
| VBool (b : bool)
| VInt (z : Z)
| VStr (s : string)
| VTime (t : Z)                         (* a UTC datetime, as a timestamp *)
| VId (o : oid)                         (* an ObjectId *)
| VList (l : list value)                (* an array *)
| VDoc (l : list (string * value)).     (* an embedded document, ordered *)

Definition value_eq_dec : ∀ a b : value, {a = b} + {a ≠ b}.
Proof.
  fix IH 1. intros a b.
  decide equality;
    try solve [ apply Bool.bool_dec | apply Z.eq_dec | apply N.eq_dec
              | apply String.string_dec ].
  - apply (List.list_eq_dec IH).
  - apply List.list_eq_dec. intros [k1 v1] [k2 v2].
    destruct (String.string_dec k1 k2) as [->|Hk]; [|right; congruence].
    destruct (IH v1 v2) as [->|Hv]; [left; reflexivity | right; congruence].
Defined.

#[global] Instance value_eq_decision : EqDecision value := value_eq_dec.

#[global] Instance value_inhabited : Inhabited value := populate VNull.

(** A document: a Python dict keyed by field name. *)
Abbreviation doc := (gmap string value).

(** ** Identifier normalizer *)

(** [pop_experiment_id]: [experiment_doc.pop('_id', None)], then
    [experiment_doc.pop('id', None)]. *)
Definition pop_experiment_id (experiment_doc : doc) : doc :=
  delete "id" (delete "_id" experiment_doc).

(** [if k1 in d: d[k2] = d.pop(k1)]. *)
Definition rename_key (k1 k2 : string) (d : doc) : doc :=
  match d !! k1 with
  | Some v => <[k2 := v]> (delete k1 d)
  | None => d
  end.

(** [to_database_experiment_doc]: rename "id" to "_id".  The argument may be
    Python's [None], which is handed back. *)
Definition to_database_experiment_doc (experiment_doc : option doc) : option doc :=
  match experiment_doc with
  | Some d => Some (rename_key "id" "_id" d)
  | None => None
  end.

(** [from_database_experiment_doc]: rename "_id" to "id". *)
Definition from_database_experiment_doc (experiment_doc : option doc) : option doc :=
  match experiment_doc with
  | Some d => Some (rename_key "_id" "id" d)
  | None => None
  end.

(** ** Exceptions and the store monad *)

Inductive exn : Type :=
| KeyError            (* NotFound *)
| ValueError          (* InvalidArgument *)
| TypeError
| ValidationError     (* raised by [validate_experiment_doc] *)
| InvalidIdentifier   (* raised by [validate_experiment_id] *)
| DuplicateKeyError   (* pymongo: the primary key is taken *)
| WriteError          (* pymongo: the update would change [_id] *)
| OperationFailure    (* pymongo: the server refused the query *)
| OverflowError       (* bson: an integer beyond eight bytes *)
| InvalidDocument     (* bson: a document the driver does not encode *)
| RecursionError.     (* the interpreter's recursion limit was reached *)

Inductive outcome (A : Type) : Type :=
| Ok (a : A)
| Raise (e : exn).
Arguments Ok {A} a.
Arguments Raise {A} e.

(** What the database makes of the queries, payloads and documents that
    are not written out below. *)
Record engine : Type := Engine {
  db_accepts : string → value → bool;       (* the server answers this entry of a query *)
  db_holds : string → value → doc → bool;   (* and the entry holds of this document *)
  db_set : doc → doc → outcome doc;         (* ['$set'] of this payload on these fields *)
  db_insert : doc → option exn              (* this document is refused, or stored as given *)
}.

(** [pymongo.ASCENDING] and [pymongo.DESCENDING]. *)
Inductive direction : Type := ASCENDING | DESCENDING.

#[global] Instance direction_eq_decision : EqDecision direction.
Proof. solve_decision. Defined.

(** A key specification: [[(field, direction), ...]]. *)
Abbreviation key_spec := (list (string * direction)).

(** The commands the database receives. *)
Inductive command : Type :=
| index_information_cmd
| create_indexes_cmd
| find_one_cmd
| insert_one_cmd
| update_one_cmd
| delete_one_cmd
| find_cmd.

#[global] Instance command_eq_decision : EqDecision command.
Proof. solve_decision. Defined.

(** A stored record: the primary key and the other fields. *)
Abbreviation record := (oid * doc)%type.

(** The MongoDB collection behind [AsyncIOMotorCollection]. *)
Record mongo : Type := Mongo {
  documents : list record;        (* natural order *)
  index_keys : list key_spec;     (* the 'key' of every index *)
  commands : list command         (* what was sent so far, oldest first *)
}.

(** The attributes of an [MLDB] object. *)
Record MLDB : Type := MkMLDB {
  _collection : mongo;
  _indexes_ensured : bool
}.

(** The stored records of a store. *)
Definition stored (s : MLDB) : list record := documents (_collection s).

Definition M (A : Type) : Type := MLDB → outcome A * MLDB.

Definition ret {A} (a : A) : M A := λ s, (Ok a, s).
Definition raise {A} (e : exn) : M A := λ s, (Raise e, s).
Definition bind {A B} (m : M A) (k : A → M B) : M B :=
  λ s, match m s with
       | (Ok a, s') => k a s'
       | (Raise e, s') => (Raise e, s')
       end.

Notation "'await' x <~ m 'in' k" := (bind m (λ x, k))
  (at level 10, x name, m at level 100, k at level 200, only parsing).

(** A [for] loop whose body is awaited on every element in turn, collecting
    the results. *)
Fixpoint for_each {A B} (body : A → M B) (l : list A) : M (list B) :=
  match l with
  | [] => ret []
  | x :: l' =>
      await y <~ body x in
      await ys <~ for_each body l' in
      ret (y :: ys)
  end.

(** [d[k]] on a dict. *)
Definition getitem (d : doc) (k : string) : M value :=
  match d !! k with
  | Some v => ret v
  | None => raise KeyError
  end.

(** ** The document database

    What the collection answers to the commands this module sends.  A query
    is the conjunction of its entries.  Written out are the plain entries:
    a top-level field name against a literal value or a condition made of
    [$eq], [$ne], [$in], [$nin] and [$exists]; and the plain payloads and
    documents: field names that are not empty, hold no "." and no NUL and
    do not start with "$", integers of at most eight bytes.  The rest
    (comparison and logical operators, regular expressions, dotted paths,
    payloads whose names conflict, ...) is answered by the engine [db]. *)

Section Store.

Variable db : engine.

(** Equality of a field with a queried value: an absent field equals
    [null], an array field also matches through its elements. *)
Definition eq_match (field : option value) (q : value) : bool :=
  match field with
  | None => bool_decide (q = VNull)
  | Some v =>
      bool_decide (v = q) ||
      match v with
      | VList l => bool_decide (q ∈ l)
      | _ => false
      end
  end.

Fixpoint has_char (c : ascii) (k : string) : bool :=
  match k with
  | EmptyString => false
  | String c' k' => bool_decide (c' = c) || has_char c k'
  end.

(** A top-level field name: no operator ([$or], ...), no dotted path, no
    NUL character. *)
Definition key_ok (k : string) : bool :=
  negb (String.prefix "$" k) && negb (has_char "."%char k) && negb (has_char Ascii.zero k).

(** A field name that is stored as it is. *)
Definition plain_key (k : string) : bool :=
  key_ok k && negb (bool_decide (k = EmptyString)).

(** Every integer of the value fits in eight bytes. *)
Fixpoint fits (v : value) : bool :=
  match v with
  | VInt z => (- 2 ^ 63 <=? z)%Z && (z <? 2 ^ 63)%Z
  | VList l => forallb fits l
  | VDoc l => forallb (λ kv, fits kv.2) l
  | _ => true
  end.

(** Every field name inside the value is plain. *)
Fixpoint plain_names (v : value) : bool :=
  match v with
  | VList l => forallb plain_names l
  | VDoc l => forallb (λ kv, plain_key kv.1 && plain_names kv.2) l
  | _ => true
  end.

Definition storable_value (v : value) : bool := fits v && plain_names v.

(** Every field name of the document, at any depth, is plain. *)
Definition named_plainly (d : doc) : bool :=
  bool_decide (map_Forall (λ k v, plain_key k && plain_names v = true) d).

(** A document the database stores field by field, as given. *)
Definition storable (d : doc) : bool :=
  bool_decide (map_Forall (λ k v, plain_key k && storable_value v = true) d).

(** A payload ['$set'] merges field by field: storable, and not empty. *)
Definition plain_payload (fields : doc) : bool :=
  storable fields && bool_decide (fields ≠ ∅).

(** A condition [{"$op": arg, ...}] as opposed to a literal value. *)
Definition is_operator_doc (cond : value) : bool :=
  match cond with
  | VDoc ((k, _) :: _) => String.prefix "$" k
  | _ => false
  end.

Definition operator_ok (e : string * value) : bool :=
  let '(op, arg) := e in
  storable_value arg &&
  (if decide (op = "$eq") then true
   else if decide (op = "$ne") then true
   else if decide (op = "$in") then match arg with VList _ => true | _ => false end
   else if decide (op = "$nin") then match arg with VList _ => true | _ => false end
   else if decide (op = "$exists") then match arg with VBool _ => true | _ => false end
   else false).

Definition operator_holds (field : option value) (e : string * value) : bool :=
  let '(op, arg) := e in
  if decide (op = "$eq") then eq_match field arg
  else if decide (op = "$ne") then negb (eq_match field arg)
  else if decide (op = "$in") then
    match arg with VList l => existsb (eq_match field) l | _ => false end
  else if decide (op = "$nin") then
    match arg with VList l => negb (existsb (eq_match field) l) | _ => false end
  else if decide (op = "$exists") then
    match arg with
    | VBool b => bool_decide (b = bool_decide (is_Some field))
    | _ => false
    end
  else false.

Definition cond_ok (cond : value) : bool :=
  if is_operator_doc cond then
    match cond with VDoc l => forallb operator_ok l | _ => false end
  else storable_value cond.

Definition cond_holds (field : option value) (cond : value) : bool :=
  if is_operator_doc cond then
    match cond with VDoc l => forallb (operator_holds field) l | _ => false end
  else eq_match field cond.

(** The entry [k: cond] of a query is one of the plain ones. *)
Definition entry_plain (k : string) (cond : value) : bool := key_ok k && cond_ok cond.

(** The server answers the entry. *)
Definition entry_ok (k : string) (cond : value) : bool :=
  entry_plain k cond || db_accepts db k cond.

(** The entry holds of the document [d]. *)
Definition entry_holds (k : string) (cond : value) (d : doc) : bool :=
  if entry_plain k cond then cond_holds (d !! k) cond else db_holds db k cond d.

(** The server accepts the query. *)
Definition query_ok (q : doc) : bool :=
  bool_decide (map_Forall (λ k cond, entry_ok k cond = true) q).

(** The document [d] satisfies every entry of the query [q]. *)
Definition matches (q : doc) (d : doc) : bool :=
  bool_decide (map_Forall (λ k cond, entry_holds k cond d = true) q).

(** The document a record stands for. *)
Definition as_doc (r : record) : doc := <["_id" := VId r.1]> r.2.

Definition selects (q : doc) (r : record) : bool := matches q (as_doc r).

(** The records a query selects, in natural order. *)
Definition selected (q : doc) (rs : list record) : list record :=
  filter (λ r, selects q r = true) rs.

Fixpoint alter_first {A} (p : A → bool) (g : A → A) (l : list A) : list A :=
  match l with
  | [] => []
  | x :: l' => if p x then g x :: l' else x :: alter_first p g l'
  end.

Fixpoint remove_first {A} (p : A → bool) (l : list A) : list A :=
  match l with
  | [] => []
  | x :: l' => if p x then l' else x :: remove_first p l'
  end.

(** An ObjectId no stored record has. *)
Definition fresh_oid (rs : list record) : oid :=
  N.succ (foldr N.max 0%N (rs.*1)).

Definition with_documents (rs : list record) (s : MLDB) : MLDB :=
  MkMLDB (Mongo rs (index_keys (_collection s)) (commands (_collection s)))
         (_indexes_ensured s).

(** Every call on the collection is a command sent to the database. *)
Definition sent (c : command) (s : MLDB) : MLDB :=
  MkMLDB (Mongo (documents (_collection s)) (index_keys (_collection s))
                (commands (_collection s) ++ [c]))
         (_indexes_ensured s).

Definition send (c : command) : M unit := λ s, (Ok tt, sent c s).

(** How many hard deletes the database was sent. *)
Definition deletes_sent (s : MLDB) : nat :=
  length (filter (λ c, c = delete_one_cmd) (commands (_collection s))).

Definition get_documents : M (list record) := λ s, (Ok (documents (_collection s)), s).
Definition put_documents (rs : list record) : M unit := λ s, (Ok tt, with_documents rs s).

(** [collection.index_information()]: the key of every index. *)
Definition index_information : M (list key_spec) :=
  await _u <~ send index_information_cmd in
  λ s, (Ok (index_keys (_collection s)), s).

(** [collection.create_indexes(index_models)]. *)
Definition create_indexes (index_models : list key_spec) : M unit :=
  await _u <~ send create_indexes_cmd in
  λ s, (Ok tt,
        MkMLDB (Mongo (documents (_collection s))
                      (index_keys (_collection s) ++
                       filter (λ k, k ∉ index_keys (_collection s)) index_models)
                      (commands (_collection s)))
               (_indexes_ensured s)).

(** [collection.find_one(filter)]: the first record, in natural order, that
    the filter selects, or [None]. *)
Definition find_one (q : doc) : M (option doc) :=
  await _u <~ send find_one_cmd in
  if query_ok q then
    await rs <~ get_documents in
    ret (as_doc <$> List.find (selects q) rs)
  else raise OperationFailure.

(** [collection.insert_one(document)]: gives [inserted_id].  The driver
    encodes the document before anything is sent: with plain field names
    and an integer beyond eight bytes, it raises.  A document without [_id]
    gets a new ObjectId. *)
Definition insert_one (d : doc) : M value :=
  if negb (storable d) && named_plainly d then raise OverflowError
  else
    await _u <~ send insert_one_cmd in
    match (if storable d then None else db_insert db d) with
    | Some e => raise e
    | None =>
        await rs <~ get_documents in
        match d !! "_id" with
        | None =>
            let o := fresh_oid rs in
            await _w <~ put_documents (rs ++ [(o, d)]) in
            ret (VId o)
        | Some (VId o) =>
            if bool_decide (o ∈ rs.*1) then raise DuplicateKeyError
            else
              await _w <~ put_documents (rs ++ [(o, delete "_id" d)]) in
              ret (VId o)
        | Some _ => raise OperationFailure   (* this collection is keyed by ObjectId *)
        end
    end.

(** ['$set'] on one record.  With a plain payload the given fields replace
    or extend the stored ones, and the primary key cannot change; with any
    other payload (a dotted name is a path into an embedded document, two
    names may conflict, ...) the outcome is the engine's. *)
Definition apply_set (fields : doc) (r : record) : record :=
  if plain_payload fields then (r.1, delete "_id" fields ∪ r.2)
  else (r.1, match db_set db fields r.2 with Ok f' => f' | Raise _ => r.2 end).

Definition set_allowed (fields : doc) (r : record) : bool :=
  if plain_payload fields then
    match fields !! "_id" with
    | None => true
    | Some v => bool_decide (v = VId r.1)
    end
  else match db_set db fields r.2 with Ok _ => true | Raise _ => false end.

Definition set_error (fields : doc) (r : record) : exn :=
  if plain_payload fields then WriteError
  else match db_set db fields r.2 with Ok _ => WriteError | Raise e => e end.

(** [collection.update_one(filter, {'$set': fields})]: gives
    [matched_count]. *)
Definition update_one (q : doc) (fields : doc) : M nat :=
  await _u <~ send update_one_cmd in
  if query_ok q then
    await rs <~ get_documents in
    match List.find (selects q) rs with
    | None => ret 0
    | Some r =>
        if set_allowed fields r then
          await _w <~ put_documents (alter_first (selects q) (apply_set fields) rs) in
          ret 1
        else raise (set_error fields r)
    end
  else raise OperationFailure.

(** [collection.delete_one(filter)]: gives [deleted_count]. *)
Definition delete_one (q : doc) : M nat :=
  await _u <~ send delete_one_cmd in
  if query_ok q then
    await rs <~ get_documents in
    match List.find (selects q) rs with
    | None => ret 0
    | Some _ =>
        await _w <~ put_documents (remove_first (selects q) rs) in
        ret 1
    end
  else raise OperationFailure.

(** *** Cursors: [collection.find] *)

(** The sort order of the database on values: by kind first (null, numbers,
    strings, documents, ObjectIds, booleans, dates), then by the value.
    Embedded documents are left tied among themselves; an array sorts by
    one of its elements, and is left tied with every value. *)
Definition kind_order (v : value) : nat :=
  match v with
  | VNull => 0
  | VInt _ => 1
  | VStr _ => 2
  | VDoc _ => 3
  | VList _ => 4
  | VId _ => 5
  | VBool _ => 6
  | VTime _ => 7
  end.

Definition bson_leb (a b : value) : bool :=
  match a, b with
  | VList _, _ | _, VList _ => true
  | VInt x, VInt y => (x <=? y)%Z
  | VStr s, VStr t => String.leb s t
  | VId x, VId y => (x <=? y)%N
  | VBool x, VBool y => implb x y
  | VTime x, VTime y => (x <=? y)%Z
  | _, _ => (kind_order a <=? kind_order b)%nat
  end.

(** The value a document is sorted by: an absent field counts as [null]. *)
Definition sort_key (k : string) (d : doc) : value := default VNull (d !! k).

(** [d1] may come before [d2] under the sort specification. *)
Fixpoint doc_leb (spec : key_spec) (d1 d2 : doc) : bool :=
  match spec with
  | [] => true
  | (k, dir) :: spec' =>
      let a := sort_key k d1 in
      let b := sort_key k d2 in
      let '(x, y) := match dir with ASCENDING => (a, b) | DESCENDING => (b, a) end in
      if bson_leb x y then
        if bson_leb y x then doc_leb spec' d1 d2 else true
      else false
  end.

Definition doc_le (spec : key_spec) : relation doc :=
  λ d1 d2, doc_leb spec d1 d2 = true.

#[global] Instance doc_le_dec spec d1 d2 : Decision (doc_le spec d1 d2).
Proof. unfold doc_le. apply _. Defined.

Definition sort_docs (spec : key_spec) (ds : list doc) : list doc :=
  match spec with
  | [] => ds
  | _ => merge_sort (doc_le spec) ds
  end.

(** An inclusion projection [{k: 1, ...}]: the listed fields and [_id]. *)
Definition project (projection : option (list string)) (d : doc) : doc :=
  match projection with
  | None => d
  | Some ks => filter (λ kv, kv.1 = "_id" ∨ kv.1 ∈ ks) d
  end.

Record cursor : Type := Cursor {
  cur_filter : doc;
  cur_projection : option (list string);
  cur_sort : key_spec;
  cur_skip : N;
  cur_limit : N                   (* 0: no limit *)
}.

(** [collection.find(filter, projection, sort=...)]: nothing is sent before
    the cursor is iterated. *)
Definition find (q : doc) (projection : option (list string)) (sort : key_spec) : cursor :=
  Cursor q projection sort 0 0.

Definition cursor_skip (n : N) (c : cursor) : cursor :=
  Cursor (cur_filter c) (cur_projection c) (cur_sort c) n (cur_limit c).

Definition cursor_limit (n : N) (c : cursor) : cursor :=
  Cursor (cur_filter c) (cur_projection c) (cur_sort c) (cur_skip c) n.

Definition limited (n : N) (ds : list doc) : list doc :=
  if (n =? 0)%N then ds else take (N.to_nat n) ds.

(** What the documents in [rs] answer to the cursor. *)
Definition cursor_result (c : cursor) (rs : list record) : list doc :=
  project (cur_projection c) <$>
    limited (cur_limit c)
      (drop (N.to_nat (cur_skip c))
         (sort_docs (cur_sort c) (as_doc <$> selected (cur_filter c) rs))).

(** [async for doc in cursor]: the documents the cursor goes through. *)
Definition to_list (c : cursor) : M (list doc) :=
  await _u <~ send find_cmd in
  if query_ok (cur_filter c) then
    await rs <~ get_documents in
    ret (cursor_result c rs)
  else raise OperationFailure.

(** ** Index manager *)

(** [ensure_mongo_indexes(collection, *indexes)]. *)
Definition ensure_mongo_indexes (indexes : list key_spec) : M unit :=
  match indexes with
  | [] => ret tt
  | _ =>
      let created_flag := replicate (length indexes) false in
      await information <~ index_information in
      let created_flag :=
        foldl (λ flags index_info,
                 zip_with (λ (flag : bool) index_to_create,
                             if bool_decide (index_to_create = index_info)
                             then true else flag)
                          flags indexes)
              created_flag information in
      let index_models :=
        (filter (λ ci, ci.1 = false) (zip created_flag indexes)).*2 in
      match index_models with
      | [] => ret tt
      | _ => create_indexes index_models
      end
  end.

Definition required_indexes : list key_spec :=
  [ [("parent_id", ASCENDING)];
    [("name", ASCENDING)];
    [("tags", ASCENDING)];
    [("status", ASCENDING)];
    [("fingerprint", ASCENDING)];
    [("args", ASCENDING)];
    [("deleted", ASCENDING)];
    [("start_time", DESCENDING)];
    [("stop_time", DESCENDING)];
    [("heartbeat", DESCENDING)] ].

Definition set_indexes_ensured (b : bool) : M unit :=
  λ s, (Ok tt, MkMLDB (_collection s) b).

(** [MLDB.ensure_indexes]. *)
Definition ensure_indexes : M unit :=
  λ s, if _indexes_ensured s then (Ok tt, s)
       else (await _u <~ ensure_mongo_indexes required_indexes in
             set_indexes_ensured true) s.

(** The condition [{'$ne': True}]. *)
Definition ne_true : value := VDoc [("$ne", VBool true)].

(** ** The experiment tree, as the stored [parent_id] fields draw it *)

(** The record names [parent] as its parent. *)
Definition is_child (parent : oid) (r : record) : bool :=
  eq_match (r.2 !! "parent_id") (VId parent).

(** The identifiers of the children of [parent], in natural order. *)
Definition children_ids (rs : list record) (parent : oid) : list oid :=
  (filter (λ r, is_child parent r = true) rs).*1.

Definition child_of (rs : list record) : relation oid :=
  λ parent c, c ∈ children_ids rs parent.

(** [j] is [o] or is reached from [o] by following [parent_id] links down. *)
Definition descendant (rs : list record) : relation oid := rtc (child_of rs).

(** The depth-first visit from [o]: nothing when [o] is not stored,
    otherwise [o] first, then the visit of each child in turn. *)
Inductive preorder (rs : list record) : oid → list oid → Prop :=
| preorder_absent o :
    o ∉ rs.*1 → preorder rs o []
| preorder_node o ls :
    o ∈ rs.*1 →
    Forall2 (preorder rs) (children_ids rs o) ls →
    preorder rs o (o :: concat ls).

(** Every child of a stored record ranks below it: the links form a forest
    of finite height. *)
Definition ranked (rs : list record) (rank : oid → nat) : bool :=
  forallb (λ p : record,
             forallb (λ c, (rank c <? rank p.1)%nat) (children_ids rs p.1))
          rs.

Definition mark_deleted (r : record) : record :=
  (r.1, <["deleted" := VBool true]> r.2).

(** The collection once the records listed in [l] carry [deleted = true]. *)
Definition mark_all (l : list oid) (rs : list record) : list record :=
  (λ r, if bool_decide (r.1 ∈ l) then mark_deleted r else r) <$> rs.

(** The documents of [s'] are those of [s], some of them with
    [deleted = true] set: nothing else differs. *)
Definition only_marks (s s' : MLDB) : Prop :=
  ∃ L, stored s' = mark_all L (stored s).

(** The keys of the collection are unique. *)
Definition unique_keys (s : MLDB) : Prop := NoDup (stored s).*1.


(** The fields kept under a key. *)
Definition record_of (rs : list record) (o : oid) : option doc :=
  snd <$> List.find (λ r, bool_decide (r.1 = o)) rs.

(** The soft-delete flag is set: [deleted] equals [true] for the database. *)
Definition is_deleted (d : doc) : bool := eq_match (d !! "deleted") (VBool true).



(** ** A schema to run the store with *)

Definition field_is (p : value → bool) (k : string) (d : doc) : bool :=
  match d !! k with
  | None => true
  | Some v => p v
  end.

Definition is_str (v : value) : bool := match v with VStr _ => true | _ => false end.
Definition is_time (v : value) : bool := match v with VTime _ => true | _ => false end.
Definition is_id (v : value) : bool := match v with VId _ => true | _ => false end.
Definition is_bool (v : value) : bool := match v with VBool _ => true | _ => false end.
Definition is_status (v : value) : bool :=
  bool_decide (v ∈ [VStr "RUNNING"; VStr "COMPLETED"; VStr "FAILED"]).

(** Modelled from the spec: [validate_experiment_doc] of
    [mlstorage_server.schema], which is not among the sources.  The spec
    (section 3) types the fields of an experiment document; a field that is
    present must have the type listed there, every other field passes
    through, and the document is returned as it is. *)
Definition spec_validate_experiment_doc (d : doc) : option doc :=
  if field_is is_str "name" d && field_is is_str "description" d &&
     field_is is_id "parent_id" d && field_is is_status "status" d &&
     field_is is_time "start_time" d && field_is is_time "stop_time" d &&
     field_is is_time "heartbeat" d && field_is is_bool "deleted" d
  then Some d else None.

Definition hex_digit (c : ascii) : option N :=
  let n := N_of_ascii c in
  if (48 <=? n)%N && (n <=? 57)%N then Some (n - 48)%N
  else if (97 <=? n)%N && (n <=? 102)%N then Some (n - 87)%N
  else if (65 <=? n)%N && (n <=? 70)%N then Some (n - 55)%N
  else None.

Fixpoint hex_value (acc : N) (s : string) : option N :=
  match s with
  | EmptyString => Some acc
  | String c s' =>
      match hex_digit c with
      | Some h => hex_value (16 * acc + h)%N s'
      | None => None
      end
  end.

(** Modelled from the spec: [validate_experiment_id] of
    [mlstorage_server.schema], which is not among the sources.  An
    identifier is an ObjectId or the 24 hexadecimal digits that spell one
    (spec, section 6: it round-trips through string and native forms); any
    other value is malformed. *)
Definition spec_validate_experiment_id (id : value) : option oid :=
  match id with
  | VId o => Some o
  | VStr s => if (String.length s =? 24)%nat then hex_value 0 s else None
  | _ => None
  end.

(** An engine to run the store with: it answers the range conditions
    [{'$gt': v}] and [{'$lt': v}] on a top-level field, between values of
    one kind, and refuses every other entry, payload and document that is
    not plain. *)
Definition range_cond (cond : value) : option (bool * value) :=
  match cond with
  | VDoc [(op, v)] =>
      if decide (op = "$gt") then Some (true, v)
      else if decide (op = "$lt") then Some (false, v)
      else None
  | _ => None
  end.

Definition range_holds (field : option value) (cond : value) : bool :=
  match field, range_cond cond with
  | Some x, Some (true, v) =>
      (kind_order x =? kind_order v)%nat && negb (bson_leb x v)
  | Some x, Some (false, v) =>
      (kind_order x =? kind_order v)%nat && negb (bson_leb v x)
  | _, _ => false
  end.

Definition sample_engine : engine :=
  Engine (λ k cond, key_ok k && bool_decide (is_Some (range_cond cond)))
         (λ k cond d, range_holds (d !! k) cond)
         (λ _ _, Raise WriteError)
         (λ _, Some InvalidDocument).

(** A new store over an empty collection, which has the index on [_id]. *)
Definition empty_store : MLDB :=
  MkMLDB (Mongo [] [[("_id", ASCENDING)]] []) false.

Definition store_of (rs : list record) : MLDB := with_documents rs empty_store.

(** A small collection: experiment 1 with children 2 and 3, experiment 4
    under 2, and experiment 5, soft-deleted, on its own. *)
Definition sample_records : list record :=
  [ (1%N, {["name" := VStr "train-v1"; "status" := VStr "RUNNING";
            "start_time" := VTime 10; "heartbeat" := VTime 40]});
    (2%N, {["name" := VStr "train-v1-fold0"; "parent_id" := VId 1%N;
            "status" := VStr "RUNNING"; "heartbeat" := VTime 30]});
    (3%N, {["name" := VStr "train-v1-fold1"; "parent_id" := VId 1%N;
            "status" := VStr "COMPLETED"; "heartbeat" := VTime 50]});
    (4%N, {["name" := VStr "train-v1-fold0-seed7"; "parent_id" := VId 2%N;
            "heartbeat" := VTime 20]});
    (5%N, {["name" := VStr "old"; "deleted" := VBool true;
            "heartbeat" := VTime 60]}) ].

Definition sample_store : MLDB := store_of sample_records.

(** A flat collection of finished experiments; experiment 3 is
    soft-deleted. *)
Definition finished_records : list record :=
  [ (1%N, {["name" := VStr "a"; "exit_code" := VInt 0; "heartbeat" := VTime 10]});
    (2%N, {["name" := VStr "b"; "exit_code" := VInt 2; "heartbeat" := VTime 30]});
    (3%N, {["name" := VStr "c"; "exit_code" := VInt 3; "heartbeat" := VTime 20;
            "deleted" := VBool true]});
    (4%N, {["name" := VStr "d"; "exit_code" := VInt 1; "heartbeat" := VTime 40]}) ].

(** A collection outside the data model: experiment 1 is its own parent. *)
Definition cyclic_records : list record := [ (1%N, {["parent_id" := VId 1%N]}) ].

(** ** The store *)

(** [mlstorage_server.schema.validate_experiment_doc]: the shaped document,
    or [None] where it raises. *)
Variable validate_experiment_doc : doc → option doc.

(** [mlstorage_server.schema.validate_experiment_id]: the ObjectId, or
    [None] where it raises. *)
Variable validate_experiment_id : value → option oid.

Definition validated_doc (d : doc) : M doc :=
  match validate_experiment_doc d with
  | Some d' => ret d'
  | None => raise ValidationError
  end.

Definition validated_id (id : value) : M value :=
  match validate_experiment_id id with
  | Some o => ret (VId o)
  | None => raise InvalidIdentifier
  end.

(** [dict(doc_fields or ())]. *)
Definition dict_or_empty (doc_fields : option doc) : doc := default ∅ doc_fields.

(** [MLDB.get]. *)
Definition get (id : value) : M (option doc) :=
  await id' <~ validated_id id in
  await found <~ find_one (<["_id" := id']> {["deleted" := ne_true]}) in
  ret (from_database_experiment_doc found).

(** [MLDB.create]; [utcnow] is what [datetime.utcnow()] gives. *)
Definition create (utcnow : Z) (name : value) (doc_fields : option doc) : M value :=
  await doc_fields <~ validated_doc (pop_experiment_id (dict_or_empty doc_fields)) in
  let doc_fields := <["name" := name]> doc_fields in
  let doc_fields :=
    match doc_fields !! "start_time" with
    | None => <["start_time" := VTime utcnow]> doc_fields
    | Some _ => doc_fields
    end in
  await doc_fields <~
    match doc_fields !! "heartbeat" with
    | None =>
        await start_time <~ getitem doc_fields "start_time" in
        ret (<["heartbeat" := start_time]> doc_fields)
    | Some _ => ret doc_fields
    end in
  let doc_fields :=
    match doc_fields !! "status" with
    | None => <["status" := VStr "RUNNING"]> doc_fields
    | Some _ => doc_fields
    end in
  await _u <~ ensure_indexes in
  insert_one doc_fields.

(** [MLDB._update]. *)
Definition _update (id : value) (doc_fields : doc) : M unit :=
  await matched_count <~
    update_one (<["_id" := id]> {["deleted" := ne_true]}) doc_fields in
  if (matched_count <? 1)%nat then raise KeyError else ret tt.

(** [MLDB.update]. *)
Definition update (id : value) (doc_fields : option doc) : M unit :=
  await id <~ validated_id id in
  await doc_fields <~ validated_doc (pop_experiment_id (dict_or_empty doc_fields)) in
  await _u <~ ensure_indexes in
  if bool_decide (doc_fields ≠ ∅) then _update id doc_fields else ret tt.

(** [MLDB.set_heartbeat]. *)
Definition set_heartbeat (utcnow : Z) (id : value) (doc_fields : option doc) : M unit :=
  await doc_fields <~ validated_doc (pop_experiment_id (dict_or_empty doc_fields)) in
  let doc_fields := <["heartbeat" := VTime utcnow]> doc_fields in
  await _u <~ ensure_indexes in
  _update id doc_fields.

(** [MLDB.set_finished]. *)
Definition set_finished (utcnow : Z) (id : value) (status : value)
    (doc_fields : option doc) : M unit :=
  if bool_decide (status ∉ [VStr "COMPLETED"; VStr "FAILED"]) then raise ValueError
  else
    await doc_fields <~ validated_doc (pop_experiment_id (dict_or_empty doc_fields)) in
    let doc_fields :=
      <["stop_time" := VTime utcnow]> (<["heartbeat" := VTime utcnow]> doc_fields) in
    let doc_fields := <["status" := status]> doc_fields in
    await _u <~ ensure_indexes in
    _update id doc_fields.

(** [MLDB._mark_delete].  [depth] is the number of nested calls the
    interpreter still allows. *)
Fixpoint _mark_delete (depth : nat) (id : value) : M (list value) :=
  match depth with
  | 0 => raise RecursionError
  | S depth' =>
      await matched_count <~
        update_one {["_id" := id]} {["deleted" := VBool true]} in
      if (0 <? matched_count)%nat then
        await children <~ to_list (find {["parent_id" := id]} (Some ["_id"]) []) in
        await rets <~
          for_each (λ c, await cid <~ getitem c "_id" in _mark_delete depth' cid)
                   children in
        ret (id :: concat rets)
      else ret []
  end.

(** [MLDB.mark_delete]. *)
Definition mark_delete (depth : nat) (id : value) : M (list value) :=
  await id <~ validated_id id in
  await _u <~ ensure_indexes in
  _mark_delete depth id.

(** [set(validate_experiment_id(i) for i in id_list)], as the list of its
    distinct members; [None] where one identifier is refused. *)
Definition validated_id_set (id_list : list value) : option (list oid) :=
  remove_dups <$> mapM validate_experiment_id id_list.

(** [deletion_task] inside [MLDB.complete_deletion]. *)
Definition deletion_task (id : oid) : M nat := delete_one {["_id" := VId id]}.

(** [MLDB.complete_deletion]. *)
Definition complete_deletion (id_list : list value) : M nat :=
  match validated_id_set id_list with
  | None => raise InvalidIdentifier
  | Some id_list =>
      let tasks := deletion_task <$> id_list in
      await _u <~ ensure_indexes in
      await counts <~ for_each (λ task, task) tasks in
      ret (sum_list counts)
  end.

(** [MLDB.iter_docs]: the documents yielded, in order. *)
Definition iter_docs (filter : option doc) (skip limit : option N)
    (sort_by : option key_spec) (include_deleted : bool) : M (list (option doc)) :=
  await valid <~ validated_doc (dict_or_empty filter) in
  match to_database_experiment_doc (Some valid) with
  | None => raise TypeError
  | Some filter_ =>
      let filter_ :=
        if include_deleted then filter_ else <["deleted" := ne_true]> filter_ in
      let sort_by := default [("heartbeat", DESCENDING)] sort_by in
      let cursor := find filter_ None sort_by in
      let cursor :=
        match skip with
        | Some n => if (n =? 0)%N then cursor else cursor_skip n cursor
        | None => cursor
        end in
      let cursor :=
        match limit with
        | Some n => if (n =? 0)%N then cursor else cursor_limit n cursor
        | None => cursor
        end in
      await found <~ to_list cursor in
      ret ((λ d, from_database_experiment_doc (Some d)) <$> found)
  end.

(** [MLDB.fetch_docs]. *)
Definition fetch_docs (filter : option doc) (skip limit : option N)
    (sort_by : option key_spec) (include_deleted : bool) : M (list (option doc)) :=
  iter_docs filter skip limit sort_by include_deleted.


(** * Properties *)

(** ** Identifier normalizer *)

Lemma rename_key_source_gone (k1 k2 : string) (d : doc) :
  k1 ≠ k2 → rename_key k1 k2 d !! k1 = None.
Proof.
  intros Hne. unfold rename_key.
  destruct (d !! k1) as [v|] eqn:Hk; [|done].
  rewrite lookup_insert_ne by done. apply lookup_delete_eq.
Qed.

Lemma rename_key_absent (k1 k2 : string) (d : doc) :
  d !! k1 = None → rename_key k1 k2 d = d.
Proof. intros Hk. unfold rename_key. by rewrite Hk. Qed.

Lemma rename_key_back (k1 k2 : string) (d : doc) :
  k1 ≠ k2 → is_Some (d !! k1) → d !! k2 = None →
  rename_key k2 k1 (rename_key k1 k2 d) = d.
Proof.
  intros Hne [v Hv] Hk2. unfold rename_key. rewrite Hv.
  rewrite lookup_insert_eq, delete_insert_eq.
  rewrite (delete_id (delete k1 d)) by (by rewrite lookup_delete_ne).
  rewrite insert_delete_eq. by apply insert_id.
Qed.


Lemma pop_experiment_id_twice (d : doc) :
  pop_experiment_id (pop_experiment_id d) = pop_experiment_id d.
Proof.
  unfold pop_experiment_id.
  rewrite (delete_id (delete "id" _) "_id")
    by (by rewrite lookup_delete_ne, lookup_delete_eq).
  by rewrite delete_id by apply lookup_delete_eq.
Qed.

(** C8.  What leaves through [to_database_experiment_doc] never holds the
    key "id" and what comes back through [from_database_experiment_doc]
    never holds the key "_id"; a document with neither key goes through both
    unchanged; a document with "id" and without "_id" is given back by the
    outgoing rename followed by the incoming one. *)
Theorem identifier_renames (d : doc) :
  (∃ d', to_database_experiment_doc (Some d) = Some d' ∧ d' !! "id" = None) ∧
  (∃ d', from_database_experiment_doc (Some d) = Some d' ∧ d' !! "_id" = None) ∧
  (d !! "id" = None → d !! "_id" = None →
     to_database_experiment_doc (Some d) = Some d ∧
     from_database_experiment_doc (Some d) = Some d) ∧
  (is_Some (d !! "id") → d !! "_id" = None →
     from_database_experiment_doc (to_database_experiment_doc (Some d)) = Some d).
Proof.
  repeat split.
  - eexists; split; [reflexivity|]. by apply rename_key_source_gone.
  - eexists; split; [reflexivity|]. by apply rename_key_source_gone.
  - simpl. by rewrite rename_key_absent.
  - simpl. by rewrite rename_key_absent.
  - intros Hid Hnone. simpl. f_equal. by apply rename_key_back.
Qed.

Lemma identifier_renames_witness :
  let d : doc := {["id" := VId 7%N; "name" := VStr "train-v1"]} in
  let e : doc := {["name" := VStr "train-v1"]} in
  from_database_experiment_doc (to_database_experiment_doc (Some d)) = Some d ∧
  to_database_experiment_doc (Some e) = Some e ∧
  from_database_experiment_doc (Some e) = Some e.
Proof.
  intros d e. split.
  - apply (identifier_renames d); [by eexists | reflexivity].
  - apply (identifier_renames e); reflexivity.
Defined.

(** ** The monad *)

Lemma bind_ok {A B} (m : M A) (k : A → M B) s a s' :
  m s = (Ok a, s') → bind m k s = k a s'.
Proof. intros H. unfold bind. by rewrite H. Qed.

Lemma bind_raise {A B} (m : M A) (k : A → M B) s e s' :
  m s = (Raise e, s') → bind m k s = (Raise e, s').
Proof. intros H. unfold bind. by rewrite H. Qed.

(** ** Queries *)

Lemma entry_ok_plain (k : string) (cond : value) :
  entry_plain k cond = true → entry_ok k cond = true.
Proof. intros H. unfold entry_ok. by rewrite H. Qed.

Lemma entry_holds_plain (k : string) (cond : value) (d : doc) :
  entry_plain k cond = true → entry_holds k cond d = cond_holds (d !! k) cond.
Proof. intros H. unfold entry_holds. by rewrite H. Qed.


Lemma cond_holds_literal (field : option value) (v : value) :
  is_operator_doc v = false → cond_holds field v = eq_match field v.
Proof. intros Hv. unfold cond_holds. by rewrite Hv. Qed.

Lemma cond_holds_ne_true (field : option value) :
  cond_holds field ne_true = negb (eq_match field (VBool true)).
Proof. unfold cond_holds. simpl. by rewrite andb_true_r. Qed.

Lemma eq_match_id (o o' : oid) :
  eq_match (Some (VId o)) (VId o') = bool_decide (o = o').
Proof.
  unfold eq_match. rewrite orb_false_r.
  apply bool_decide_ext. split; [by intros [= ->] | by intros ->].
Qed.

Lemma as_doc_id (r : record) : as_doc r !! "_id" = Some (VId r.1).
Proof. apply lookup_insert_eq. Qed.

Lemma as_doc_other (r : record) (k : string) : k ≠ "_id" → as_doc r !! k = r.2 !! k.
Proof. intros Hk. unfold as_doc. by rewrite lookup_insert_ne. Qed.

(** The query [{'_id': o}] selects the record kept under [o]. *)
Lemma selects_by_id (o : oid) (r : record) :
  selects {["_id" := VId o]} r = bool_decide (r.1 = o).
Proof.
  unfold selects, matches. apply bool_decide_ext.
  rewrite map_Forall_singleton, entry_holds_plain by done.
  rewrite as_doc_id, cond_holds_literal by done.
  rewrite eq_match_id. apply bool_decide_eq_true.
Qed.

Lemma query_ok_by_id (o : oid) : query_ok {["_id" := VId o]} = true.
Proof.
  unfold query_ok. apply bool_decide_eq_true.
  rewrite map_Forall_singleton. by apply entry_ok_plain.
Qed.

(** The query [{'_id': o, 'deleted': {'$ne': True}}] selects the record kept
    under [o] unless its soft-delete flag is set. *)
Lemma selects_live (o : oid) (r : record) :
  selects (<["_id" := VId o]> {["deleted" := ne_true]}) r =
  bool_decide (r.1 = o) && negb (is_deleted r.2).
Proof.
  unfold selects, matches, is_deleted.
  rewrite <- (as_doc_other r "deleted") by done.
  rewrite <- cond_holds_ne_true, <- eq_match_id, <- (as_doc_id r).
  rewrite <- (cond_holds_literal _ (VId o)) by done.
  apply eq_true_iff_eq. rewrite bool_decide_eq_true, andb_true_iff.
  rewrite map_Forall_insert by done. rewrite map_Forall_singleton.
  by rewrite !entry_holds_plain by done.
Qed.

Lemma query_ok_live (o : oid) :
  query_ok (<["_id" := VId o]> {["deleted" := ne_true]}) = true.
Proof.
  unfold query_ok. apply bool_decide_eq_true.
  rewrite map_Forall_insert by done. rewrite map_Forall_singleton.
  split; by apply entry_ok_plain.
Qed.

(** The query [{'parent_id': o}] selects the children of [o]. *)
Lemma selects_children (o : oid) (r : record) :
  selects {["parent_id" := VId o]} r = is_child o r.
Proof.
  unfold selects, matches, is_child.
  rewrite <- (as_doc_other r "parent_id") by done.
  rewrite <- (cond_holds_literal _ (VId o)) by done.
  apply eq_true_iff_eq. rewrite bool_decide_eq_true, map_Forall_singleton.
  by rewrite entry_holds_plain by done.
Qed.

Lemma query_ok_children (o : oid) : query_ok {["parent_id" := VId o]} = true.
Proof.
  unfold query_ok. apply bool_decide_eq_true.
  rewrite map_Forall_singleton. by apply entry_ok_plain.
Qed.

(** ** Commands *)

Lemma stored_sent c s : stored (sent c s) = stored s.
Proof. reflexivity. Qed.

Lemma stored_with_documents rs s : stored (with_documents rs s) = rs.
Proof. reflexivity. Qed.

Lemma find_one_run (q : doc) (s : MLDB) :
  query_ok q = true →
  find_one q s = (Ok (as_doc <$> List.find (selects q) (stored s)), sent find_one_cmd s).
Proof. intros Hq. unfold find_one, bind, send. by rewrite Hq. Qed.

Lemma update_one_run (q fields : doc) (s : MLDB) :
  query_ok q = true →
  update_one q fields s =
    match List.find (selects q) (stored s) with
    | None => (Ok 0, sent update_one_cmd s)
    | Some r =>
        if set_allowed fields r then
          (Ok 1, with_documents (alter_first (selects q) (apply_set fields) (stored s))
                                (sent update_one_cmd s))
        else (Raise (set_error fields r), sent update_one_cmd s)
    end.
Proof.
  intros Hq. unfold update_one, bind, send. rewrite Hq. simpl.
  unfold stored. destruct (List.find _ _) as [r|]; [|done].
  by destruct (set_allowed fields r).
Qed.

Lemma delete_one_run (q : doc) (s : MLDB) :
  query_ok q = true →
  delete_one q s =
    match List.find (selects q) (stored s) with
    | None => (Ok 0, sent delete_one_cmd s)
    | Some r =>
        (Ok 1, with_documents (remove_first (selects q) (stored s)) (sent delete_one_cmd s))
    end.
Proof.
  intros Hq. unfold delete_one, bind, send. rewrite Hq. simpl.
  unfold stored. by destruct (List.find _ _).
Qed.

Lemma to_list_run (c : cursor) (s : MLDB) :
  query_ok (cur_filter c) = true →
  to_list c s = (Ok (cursor_result c (stored s)), sent find_cmd s).
Proof. intros Hq. unfold to_list, bind, send. by rewrite Hq. Qed.

(** [ensure_indexes] always returns, and touches no document. *)
Lemma ensure_mongo_indexes_run (indexes : list key_spec) (s : MLDB) :
  ∃ s', ensure_mongo_indexes indexes s = (Ok tt, s') ∧
        stored s' = stored s ∧ _indexes_ensured s' = _indexes_ensured s.
Proof.
  unfold ensure_mongo_indexes. destruct indexes as [|i indexes]; [by eexists|].
  unfold index_information, send. unfold bind.
  match goal with |- context [fmap snd ?l] => destruct (fmap snd l) end;
    by eexists.
Qed.

Lemma ensure_indexes_run (s : MLDB) :
  ∃ s', ensure_indexes s = (Ok tt, s') ∧ stored s' = stored s.
Proof.
  unfold ensure_indexes. destruct (_indexes_ensured s) eqn:He; [by eexists|].
  destruct (ensure_mongo_indexes_run required_indexes s) as (s' & Hrun & Hst & _).
  rewrite (bind_ok _ _ _ _ _ Hrun). by eexists.
Qed.

(** ** Creation, update and completion *)

Lemma bind_ret {A B} (a : A) (k : A → M B) : bind (ret a) k = k a.
Proof. reflexivity. Qed.

Lemma getitem_run (d : doc) (k : string) (v : value) :
  d !! k = Some v → getitem d k = ret v.
Proof. intros H. unfold getitem. by rewrite H. Qed.

Lemma fresh_oid_fresh (rs : list record) : fresh_oid rs ∉ rs.*1.
Proof.
  unfold fresh_oid. intros Hin.
  assert (∀ (l : list N) x, x ∈ l → (x ≤ foldr N.max 0 l)%N) as Hmax.
  { induction l as [|y l IH]; intros x Hx; [by apply elem_of_nil in Hx|].
    apply elem_of_cons in Hx as [->|Hx]; simpl; [lia|].
    specialize (IH x Hx). lia. }
  specialize (Hmax _ _ Hin). lia.
Qed.

Lemma storable_insert (k : string) (v : value) (d : doc) :
  plain_key k = true → storable_value v = true → storable d = true →
  storable (<[k := v]> d) = true.
Proof.
  unfold storable. rewrite !bool_decide_eq_true. intros Hk Hv Hd.
  apply map_Forall_insert_2; [|done]. by rewrite Hk, Hv.
Qed.

Lemma storable_lookup (d : doc) (k : string) (v : value) :
  storable d = true → d !! k = Some v → storable_value v = true.
Proof.
  unfold storable. rewrite bool_decide_eq_true. intros Hd Hk.
  specialize (Hd k v Hk). simpl in Hd. by apply andb_prop in Hd as [_ ?].
Qed.

Lemma insert_one_run (d : doc) (s : MLDB) :
  storable d = true →
  d !! "_id" = None →
  insert_one d s =
    (Ok (VId (fresh_oid (stored s))),
     with_documents (stored s ++ [(fresh_oid (stored s), d)])%list
                    (sent insert_one_cmd s)).
Proof.
  intros Hst H. unfold insert_one. rewrite Hst.
  unfold bind, send. simpl. by rewrite H.
Qed.

(** With plain names, an integer beyond eight bytes stops the insert in the
    driver: nothing is sent. *)
Lemma insert_one_overflow (d : doc) (s : MLDB) :
  named_plainly d = true → storable d = false →
  insert_one d s = (Raise OverflowError, s).
Proof. intros Hn Hs. unfold insert_one. by rewrite Hn, Hs. Qed.

Lemma storable_insert_absent (k : string) (v : value) (d : doc) :
  d !! k = None → storable d = false → storable (<[k := v]> d) = false.
Proof.
  unfold storable. rewrite !bool_decide_eq_false. intros Hk Hd Hall. apply Hd.
  by apply map_Forall_insert_1_2 in Hall.
Qed.

Lemma named_plainly_insert (k : string) (v : value) (d : doc) :
  plain_key k = true → plain_names v = true → named_plainly d = true →
  named_plainly (<[k := v]> d) = true.
Proof.
  unfold named_plainly. rewrite !bool_decide_eq_true. intros Hk Hv Hd.
  apply map_Forall_insert_2; [|done]. by rewrite Hk, Hv.
Qed.

Lemma named_plainly_lookup (d : doc) (k : string) (v : value) :
  named_plainly d = true → d !! k = Some v → plain_names v = true.
Proof.
  unfold named_plainly. rewrite bool_decide_eq_true. intros Hd Hk.
  specialize (Hd k v Hk). simpl in Hd. by apply andb_prop in Hd as [_ ?].
Qed.


Lemma ensure_then_insert (d : doc) (s : MLDB) :
  storable d = true →
  d !! "_id" = None →
  ∃ s', bind ensure_indexes (λ _, insert_one d) s = (Ok (VId (fresh_oid (stored s))), s') ∧
        stored s' = (stored s ++ [(fresh_oid (stored s), d)])%list.
Proof.
  intros Hsto Hd. destruct (ensure_indexes_run s) as (s1 & Hrun & Hst).
  rewrite (bind_ok _ _ _ _ _ Hrun), insert_one_run by done.
  rewrite Hst. by eexists.
Qed.


Lemma record_of_Some_elem (rs : list record) (o : oid) (f : doc) :
  record_of rs o = Some f → (o, f) ∈ rs.
Proof.
  unfold record_of. intros H.
  destruct (List.find _ rs) as [[o' f']|] eqn:Hfind; [|done].
  apply find_some in Hfind as [Hin Ho]. apply bool_decide_eq_true in Ho.
  simpl in *. simplify_eq. by apply list_elem_of_In.
Qed.

Lemma validated_doc_run (d d' : doc) (s : MLDB) :
  validate_experiment_doc d = Some d' → validated_doc d s = (Ok d', s).
Proof. intros H. unfold validated_doc. by rewrite H. Qed.

Lemma validated_id_run (id : value) (o : oid) (s : MLDB) :
  validate_experiment_id id = Some o → validated_id id s = (Ok (VId o), s).
Proof. intros H. unfold validated_id. by rewrite H. Qed.

(** What [create] stores, field by field. *)
Lemma create_run (utcnow : Z) (name : value) (doc_fields : option doc)
    (fields : doc) (s : MLDB) :
  validate_experiment_doc (pop_experiment_id (dict_or_empty doc_fields)) = Some fields →
  fields !! "_id" = None →
  storable (<["name" := name]> fields) = true →
  ∃ s' d,
    create utcnow name doc_fields s = (Ok (VId (fresh_oid (stored s))), s') ∧
    stored s' = (stored s ++ [(fresh_oid (stored s), d)])%list ∧
    d !! "name" = Some name ∧
    d !! "start_time" = Some (default (VTime utcnow) (fields !! "start_time")) ∧
    d !! "heartbeat" =
      Some (default (default (VTime utcnow) (fields !! "start_time"))
                    (fields !! "heartbeat")) ∧
    d !! "status" = Some (default (VStr "RUNNING") (fields !! "status")) ∧
    (∀ k, k ∉ ["name"; "start_time"; "heartbeat"; "status"] → d !! k = fields !! k).
Proof.
  intros Hvalid Hid Hsto. unfold create.
  rewrite (bind_ok _ _ _ _ _ (validated_doc_run _ _ s Hvalid)).
  cbv zeta. rewrite !lookup_insert_ne by done.
  assert (∀ v, fields !! "start_time" = Some v → storable_value v = true) as Hstv.
  { intros v Hv. apply (storable_lookup (<["name" := name]> fields) "start_time"); [done|].
    by rewrite lookup_insert_ne. }
  destruct (fields !! "start_time") as [st|] eqn:Hst;
    destruct (fields !! "heartbeat") as [hb|] eqn:Hhb;
    rewrite ?lookup_insert_ne by done; rewrite ?Hhb;
    try (erewrite getitem_run by (by simplify_map_eq));
    rewrite !bind_ret; rewrite ?lookup_insert_ne by done;
    destruct (fields !! "status") as [status|] eqn:Hs;
    (match goal with |- context [insert_one ?d] =>
       destruct (ensure_then_insert d s) as (s' & Hrun & Hstored);
       [ repeat (apply storable_insert; [done | first [done | by apply Hstv] | ]);
         exact Hsto
       | clear Hsto Hstv; by simplify_map_eq
       | clear Hsto Hstv; exists s', d]
     end);
    (split; [exact Hrun|]); (split; [exact Hstored|]);
    simplify_map_eq; repeat split;
    intros k Hk; rewrite ?lookup_insert_ne; try done;
    intros <-; apply Hk; listed.
Qed.

Lemma rename_key_target (k1 k2 : string) (d : doc) (v : value) :
  d !! k1 = Some v → rename_key k1 k2 d !! k2 = Some v.
Proof. intros H. unfold rename_key. rewrite H. apply lookup_insert_eq. Qed.

Lemma find_none_all {A} (p : A → bool) (l : list A) :
  (∀ x, x ∈ l → p x = false) → List.find p l = None.
Proof.
  induction l as [|x l IH]; intros H; [done|]. simpl.
  rewrite (H x) by apply list_elem_of_here.
  apply IH. intros y Hy. apply H. by apply list_elem_of_further.
Qed.

Lemma find_app_new (rs : list record) (o : oid) (d : doc) :
  o ∉ rs.*1 → is_deleted d = false →
  List.find (selects (<["_id" := VId o]> {["deleted" := ne_true]})) (rs ++ [(o, d)])
    = Some (o, d).
Proof.
  intros Hnew Hd. induction rs as [|r rs IH]; simpl.
  - rewrite selects_live. simpl. by rewrite Hd, bool_decide_eq_true_2.
  - rewrite fmap_cons, not_elem_of_cons in Hnew. destruct Hnew as [Hne Hnew].
    rewrite selects_live, bool_decide_eq_false_2 by done. by apply IH.
Qed.

(** The live record kept under [o] is the one an update by identifier
    reaches. *)
Lemma find_live_record (rs : list record) (o : oid) (f : doc) :
  record_of rs o = Some f → is_deleted f = false →
  List.find (selects (<["_id" := VId o]> {["deleted" := ne_true]})) rs = Some (o, f).
Proof.
  unfold record_of. intros Hrec Hlive. induction rs as [|[o' f'] rs IH]; [done|].
  simpl in *. rewrite selects_live. simpl.
  destruct (bool_decide (o' = o)) eqn:Ho.
  - apply bool_decide_eq_true in Ho. simpl in Hrec. simplify_eq. by rewrite Hlive.
  - by apply IH.
Qed.

Lemma record_of_alter_first (rs : list record) (o : oid) (f : doc) (g : record → record) :
  record_of rs o = Some f → is_deleted f = false → (∀ r, (g r).1 = r.1) →
  record_of (alter_first (selects (<["_id" := VId o]> {["deleted" := ne_true]})) g rs) o
    = Some (g (o, f)).2.
Proof.
  unfold record_of. intros Hrec Hlive Hg. induction rs as [|[o' f'] rs IH]; [done|].
  simpl in *. rewrite selects_live. simpl.
  destruct (bool_decide (o' = o)) eqn:Ho.
  - apply bool_decide_eq_true in Ho. simpl in Hrec. simplify_eq.
    rewrite Hlive. simpl. by rewrite Hg, bool_decide_eq_true_2.
  - simpl. rewrite Ho. by apply IH.
Qed.

Lemma get_run (id : value) (o : oid) (s : MLDB) :
  validate_experiment_id id = Some o →
  get id s =
    (Ok (from_database_experiment_doc
           (as_doc <$> List.find (selects (<["_id" := VId o]> {["deleted" := ne_true]}))
                                 (stored s))),
     sent find_one_cmd s).
Proof.
  intros Hid. unfold get.
  rewrite (bind_ok _ _ _ _ _ (validated_id_run _ _ s Hid)).
  by rewrite (bind_ok _ _ _ _ _ (find_one_run _ s (query_ok_live o))).
Qed.



Lemma find_app_new_deleted (rs : list record) (o : oid) (d : doc) :
  o ∉ rs.*1 → is_deleted d = true →
  List.find (selects (<["_id" := VId o]> {["deleted" := ne_true]})) (rs ++ [(o, d)])
    = None.
Proof.
  intros Hnew Hd. apply find_none_all. intros r Hr. rewrite selects_live.
  apply elem_of_app in Hr as [Hr|Hr%list_elem_of_singleton].
  - rewrite bool_decide_eq_false_2; [done|]. intros <-. apply Hnew.
    by apply list_elem_of_fmap_2.
  - subst r. simpl. rewrite Hd. apply andb_false_r.
Qed.

(** C4, amended.  A [create] whose fields validate, and whose document the
    database stores as given, stores it under a new identifier, which it
    returns: the caller's "id" and "_id" play no part, [start_time] defaults
    to the current time, [heartbeat] to [start_time] and [status] to
    "RUNNING" where absent, and every other validated field is as given.
    [get] on the returned identifier then gives that document under its
    identifier, unless it was created with [deleted] true, when [get] gives
    [None]; so the status read back is "RUNNING" when the validated fields
    hold no [status] or hold "RUNNING", the heartbeat read back equals
    [start_time] when they hold no [heartbeat] or hold the start time, and
    [deleted] is absent or false when it is so in them.  An ObjectId is
    taken to be a well-formed identifier, validated to itself. *)
Theorem create_then_get (utcnow : Z) (name : value) (doc_fields : option doc)
    (fields : doc) (s : MLDB) :
  validate_experiment_doc (pop_experiment_id (dict_or_empty doc_fields)) = Some fields →
  fields !! "_id" = None →
  storable (<["name" := name]> fields) = true →
  (∀ o, validate_experiment_id (VId o) = Some o) →
  ∃ o s' d,
    create utcnow name doc_fields s = (Ok (VId o), s') ∧
    create utcnow name doc_fields
      = create utcnow name (Some (pop_experiment_id (dict_or_empty doc_fields))) ∧
    (o ∉ (stored s).*1) ∧
    stored s' = (stored s ++ [(o, d)])%list ∧
    d !! "_id" = None ∧
    d !! "name" = Some name ∧
    d !! "start_time" = Some (default (VTime utcnow) (fields !! "start_time")) ∧
    d !! "heartbeat" =
      Some (default (default (VTime utcnow) (fields !! "start_time"))
                    (fields !! "heartbeat")) ∧
    d !! "status" = Some (default (VStr "RUNNING") (fields !! "status")) ∧
    (∀ k, k ∉ ["name"; "start_time"; "heartbeat"; "status"] → d !! k = fields !! k) ∧
    (is_deleted fields = true → ∃ s'', get (VId o) s' = (Ok None, s'')) ∧
    (is_deleted fields = false →
       ∃ s'' g,
         get (VId o) s' = (Ok (Some g), s'') ∧
         g = <["id" := VId o]> d ∧
         g !! "id" = Some (VId o) ∧
         g !! "_id" = None ∧
         (fields !! "status" = None ∨ fields !! "status" = Some (VStr "RUNNING") →
            g !! "status" = Some (VStr "RUNNING")) ∧
         g !! "start_time" = Some (default (VTime utcnow) (fields !! "start_time")) ∧
         (fields !! "heartbeat" = None ∨
          fields !! "heartbeat" = Some (default (VTime utcnow) (fields !! "start_time")) →
            g !! "heartbeat" = g !! "start_time") ∧
         (fields !! "deleted" = None ∨ fields !! "deleted" = Some (VBool false) →
            g !! "deleted" = None ∨ g !! "deleted" = Some (VBool false))).
Proof.
  intros Hvalid Hid Hsto Hoid.
  destruct (create_run utcnow name doc_fields fields s Hvalid Hid Hsto)
    as (s' & d & Hrun & Hstored & Hname & Hst & Hhb & Hstatus & Hrest).
  assert (d !! "_id" = None) as Hd_id by (rewrite Hrest; [done | not_listed]).
  assert (d !! "deleted" = fields !! "deleted") as Hd by (apply Hrest; not_listed).
  assert (is_deleted d = is_deleted fields) as Hdel by (unfold is_deleted; by rewrite Hd).
  set (o := fresh_oid (stored s)) in *.
  exists o, s', d.
  split; [exact Hrun|].
  split; [unfold create; simpl; by rewrite pop_experiment_id_twice|].
  split; [apply fresh_oid_fresh|]. split; [exact Hstored|].
  split; [exact Hd_id|]. split; [exact Hname|]. split; [exact Hst|].
  split; [exact Hhb|]. split; [exact Hstatus|]. split; [exact Hrest|].
  split.
  - intros Hgone. exists (sent find_one_cmd s').
    rewrite (get_run _ _ _ (Hoid o)), Hstored.
    rewrite find_app_new_deleted; [done | apply fresh_oid_fresh | by rewrite Hdel].
  - intros Hlive. exists (sent find_one_cmd s'), (<["id" := VId o]> d).
    split.
    { rewrite (get_run _ _ _ (Hoid o)), Hstored.
      rewrite find_app_new by (apply fresh_oid_fresh || by rewrite Hdel).
      simpl. unfold rename_key, as_doc. simpl.
      by rewrite lookup_insert_eq, delete_insert_eq, (delete_id d). }
    split; [done|]. split; [apply lookup_insert_eq|].
    split; [by rewrite lookup_insert_ne|].
    rewrite !lookup_insert_ne by done. rewrite Hst, Hhb, Hstatus, Hd.
    split; [by intros [-> | ->]|]. split; [done|].
    split; [by intros [-> | ->]|]. done.
Qed.

(** C3.  An [update] whose fields are empty once the identifier is stripped
    and the rest validated returns without raising, whether or not the
    identifier is stored, and leaves every document as it was. *)
Theorem update_empty_is_noop (id : value) (o : oid) (doc_fields : option doc) (s : MLDB) :
  validate_experiment_id id = Some o →
  validate_experiment_doc (pop_experiment_id (dict_or_empty doc_fields)) = Some ∅ →
  ∃ s', update id doc_fields s = (Ok tt, s') ∧ stored s' = stored s.
Proof.
  intros Hid Hvalid. unfold update.
  rewrite (bind_ok _ _ _ _ _ (validated_id_run _ _ s Hid)).
  rewrite (bind_ok _ _ _ _ _ (validated_doc_run _ _ s Hvalid)).
  destruct (ensure_indexes_run s) as (s1 & Hrun & Hst).
  rewrite (bind_ok _ _ _ _ _ Hrun).
  rewrite bool_decide_eq_false_2 by (by intros H; apply H).
  by exists s1.
Qed.

Lemma plain_payload_insert (k : string) (v : value) (fields : doc) :
  plain_key k = true → storable_value v = true → storable fields = true →
  plain_payload (<[k := v]> fields) = true.
Proof.
  intros Hk Hv Hsto. unfold plain_payload.
  rewrite storable_insert by done.
  apply bool_decide_eq_true_2, insert_non_empty.
Qed.

(** ['$set'] of a plain payload merges it into the record. *)
Lemma set_allowed_plain (fields : doc) (r : record) :
  plain_payload fields = true → fields !! "_id" = None → set_allowed fields r = true.
Proof. intros Hsto Hid. unfold set_allowed. by rewrite Hsto, Hid. Qed.

Lemma apply_set_plain (fields : doc) (r : record) :
  plain_payload fields = true → fields !! "_id" = None →
  apply_set fields r = (r.1, fields ∪ r.2).
Proof. intros Hsto Hid. unfold apply_set. by rewrite Hsto, delete_id. Qed.

Lemma apply_set_id (fields : doc) (r : record) : (apply_set fields r).1 = r.1.
Proof. unfold apply_set. by destruct (plain_payload fields). Qed.



(** C5.  With a status other than "COMPLETED" and "FAILED", [set_finished]
    raises [ValueError] and the store is as before: nothing was sent to the
    database.  With one of the two and fields that validate, the update it
    asks of the database sets [stop_time] and [heartbeat] to the current
    time and [status] to the given one, whatever the caller's fields said,
    next to the caller's other fields.  With plain fields and a live
    document under the identifier, it returns, and the document then holds
    these three values; the caller's other fields are merged in and the rest
    is untouched. *)
Theorem set_finished_checks_status (utcnow : Z) (id status : value)
    (doc_fields : option doc) (s : MLDB) :
  (status ∉ [VStr "COMPLETED"; VStr "FAILED"] →
     set_finished utcnow id status doc_fields s = (Raise ValueError, s)) ∧
  (status ∈ [VStr "COMPLETED"; VStr "FAILED"] →
     ∀ fields : doc,
       validate_experiment_doc (pop_experiment_id (dict_or_empty doc_fields)) = Some fields →
       ∃ payload : doc,
         set_finished utcnow id status doc_fields s
           = bind ensure_indexes (λ _, _update id payload) s ∧
         payload !! "stop_time" = Some (VTime utcnow) ∧
         payload !! "heartbeat" = Some (VTime utcnow) ∧
         payload !! "status" = Some status ∧
         (∀ k, k ∉ ["stop_time"; "heartbeat"; "status"] → payload !! k = fields !! k)) ∧
  (status ∈ [VStr "COMPLETED"; VStr "FAILED"] →
     ∀ (o : oid) (fields f : doc),
       id = VId o →
       validate_experiment_doc (pop_experiment_id (dict_or_empty doc_fields)) = Some fields →
       fields !! "_id" = None →
       storable fields = true →
       record_of (stored s) o = Some f →
       is_deleted f = false →
       ∃ s' f',
         set_finished utcnow id status doc_fields s = (Ok tt, s') ∧
         record_of (stored s') o = Some f' ∧
         f' !! "stop_time" = Some (VTime utcnow) ∧
         f' !! "heartbeat" = Some (VTime utcnow) ∧
         f' !! "status" = Some status ∧
         (∀ k, k ∉ ["stop_time"; "heartbeat"; "status"] →
               f' !! k = match fields !! k with Some v => Some v | None => f !! k end)).
Proof.
  split; [|split].
  - intros Hbad. unfold set_finished. by rewrite bool_decide_eq_true_2.
  - intros Hgood fields Hvalid. unfold set_finished.
    rewrite bool_decide_eq_false_2 by (by intros H; apply H).
    rewrite (bind_ok _ _ _ _ _ (validated_doc_run _ _ s Hvalid)). cbv zeta.
    eexists. split; [reflexivity|].
    split; [by simplify_map_eq|]. split; [by simplify_map_eq|].
    split; [by simplify_map_eq|].
    intros k Hk. rewrite !lookup_insert_ne; [done|..]; intros <-; apply Hk; listed.
  - intros Hgood o fields f -> Hvalid Hid Hsto Hrec Hlive. unfold set_finished.
    rewrite bool_decide_eq_false_2 by (by intros H; apply H).
    rewrite (bind_ok _ _ _ _ _ (validated_doc_run _ _ s Hvalid)).
    destruct (ensure_indexes_run s) as (s1 & Hrun & Hst).
    rewrite (bind_ok _ _ _ _ _ Hrun). cbv zeta.
    set (payload := <["status" := status]> _).
    assert (payload !! "_id" = None) as Hpid by (subst payload; by simplify_map_eq).
    assert (plain_payload payload = true) as Hpsto.
    { subst payload. apply plain_payload_insert; [done| |].
      - apply elem_of_cons in Hgood as [->|Hgood]; [done|].
        by apply list_elem_of_singleton in Hgood as ->.
      - by repeat (apply storable_insert; [done|done|]). }
    unfold _update. rewrite <- Hst in Hrec.
    erewrite bind_ok; cycle 1.
    { rewrite update_one_run by apply query_ok_live.
      rewrite (find_live_record _ _ _ Hrec Hlive).
      rewrite set_allowed_plain by done. reflexivity. }
    simpl. eexists _, _. split; [done|].
    rewrite stored_with_documents.
    split; [by apply (record_of_alter_first _ _ _ (apply_set payload) Hrec Hlive),
                     apply_set_id|].
    rewrite apply_set_plain by done. simpl.
    repeat split.
    + apply lookup_union_Some_l. subst payload. by simplify_map_eq.
    + apply lookup_union_Some_l. subst payload. by simplify_map_eq.
    + apply lookup_union_Some_l. subst payload. by simplify_map_eq.
    + intros k Hk.
      assert (payload !! k = fields !! k) as Hpk.
      { subst payload. rewrite !lookup_insert_ne; [done|..];
          intros <-; apply Hk; listed. }
      destruct (fields !! k) as [v|] eqn:Hfk.
      * apply lookup_union_Some_l. by rewrite Hpk.
      * rewrite lookup_union_r; by rewrite ?Hpk.
Qed.

(** C9.  When one identifier of the list is refused by
    [validate_experiment_id], [complete_deletion] raises and the store is as
    before: no deletion, and no other command, was sent. *)
Theorem complete_deletion_validates_first (id_list : list value) (s : MLDB) :
  (∃ i, i ∈ id_list ∧ validate_experiment_id i = None) →
  complete_deletion id_list s = (Raise InvalidIdentifier, s).
Proof.
  intros (i & Hin & Hbad). unfold complete_deletion, validated_id_set.
  destruct (mapM validate_experiment_id id_list) as [os|] eqn:Hmap; [|done].
  apply mapM_Some in Hmap.
  apply list_elem_of_lookup in Hin as [n Hn].
  destruct (Forall2_lookup_l _ _ _ _ _ Hmap Hn) as (o & _ & Ho). congruence.
Qed.

(** ** Hard deletion *)

Lemma ensure_indexes_deletes (s : MLDB) :
  ∃ s', ensure_indexes s = (Ok tt, s') ∧ stored s' = stored s ∧
        deletes_sent s' = deletes_sent s.
Proof.
  unfold ensure_indexes. destruct (_indexes_ensured s) eqn:He; [by eexists|].
  unfold bind, ensure_mongo_indexes, required_indexes.
  unfold index_information, send, bind.
  match goal with |- context [fmap snd ?l] => destruct (fmap snd l) end;
    eexists; (split; [reflexivity|]); split; try reflexivity;
    unfold deletes_sent; simpl; rewrite !filter_app, !length_app; simpl; lia.
Qed.

Lemma filter_all {A} (P : A → Prop) `{∀ x, Decision (P x)} (l : list A) :
  (∀ x, x ∈ l → P x) → filter P l = l.
Proof.
  induction l as [|x l IH]; intros Hall; [done|].
  rewrite filter_cons_True by apply Hall, list_elem_of_here.
  f_equal. apply IH. intros y Hy. by apply Hall, list_elem_of_further.
Qed.

Lemma find_by_id_None (rs : list record) (o : oid) :
  o ∉ rs.*1 → List.find (selects {["_id" := VId o]}) rs = None.
Proof.
  intros Ho. apply find_none_all. intros r Hr. rewrite selects_by_id.
  apply bool_decide_eq_false_2. intros <-. apply Ho. by apply list_elem_of_fmap_2.
Qed.

Lemma find_by_id_Some (rs : list record) (o : oid) :
  o ∈ rs.*1 → is_Some (List.find (selects {["_id" := VId o]}) rs).
Proof.
  induction rs as [|r rs IH]; intros Ho; [by apply elem_of_nil in Ho|].
  simpl. rewrite selects_by_id. destruct (bool_decide (r.1 = o)) eqn:Hr; [by eexists|].
  apply bool_decide_eq_false in Hr. rewrite fmap_cons in Ho.
  apply elem_of_cons in Ho as [->|Ho]; [done|]. by apply IH.
Qed.

(** Keys are unique: removing the first record kept under [o] removes every
    record kept under [o]. *)
Lemma remove_first_by_id (rs : list record) (o : oid) :
  NoDup rs.*1 →
  remove_first (selects {["_id" := VId o]}) rs = filter (λ r, r.1 ≠ o) rs.
Proof.
  induction rs as [|r rs IH]; intros Hnd; [done|].
  rewrite fmap_cons in Hnd. apply NoDup_cons in Hnd as [Hr Hnd].
  simpl. rewrite selects_by_id. destruct (bool_decide (r.1 = o)) eqn:Ho.
  - apply bool_decide_eq_true in Ho. subst o.
    rewrite filter_cons_False by (by intros H; apply H).
    clear IH Hnd. induction rs as [|r' rs IH]; [done|].
    rewrite fmap_cons, not_elem_of_cons in Hr. destruct Hr as [Hne Hr].
    rewrite filter_cons_True by done. f_equal. by apply IH.
  - apply bool_decide_eq_false in Ho. rewrite filter_cons_True by done.
    f_equal. by apply IH.
Qed.

Lemma remove_first_length {A} (p : A → bool) (l : list A) (x : A) :
  List.find p l = Some x → S (length (remove_first p l)) = length l.
Proof.
  induction l as [|y l IH]; [done|]. simpl.
  destruct (p y); [done|]. intros H. simpl. f_equal. by apply IH.
Qed.

Lemma NoDup_ids_filter (P : record → Prop) `{∀ r, Decision (P r)} (rs : list record) :
  NoDup rs.*1 → NoDup (filter P rs).*1.
Proof.
  intros Hnd. eapply sublist_NoDup; [exact Hnd|].
  apply fmap_sublist, sublist_filter.
Qed.

Lemma deletion_task_run (o : oid) (s : MLDB) :
  NoDup (stored s).*1 →
  ∃ n s',
    deletion_task o s = (Ok n, s') ∧
    stored s' = filter (λ r, r.1 ≠ o) (stored s) ∧
    n + length (stored s') = length (stored s) ∧
    n = (if bool_decide (o ∈ (stored s).*1) then 1 else 0) ∧
    deletes_sent s' = S (deletes_sent s).
Proof.
  intros Hnd. unfold deletion_task.
  rewrite delete_one_run by apply query_ok_by_id.
  assert (∀ s0 : MLDB, deletes_sent (sent delete_one_cmd s0) = S (deletes_sent s0)) as Hsent.
  { intros s0. unfold deletes_sent. simpl. rewrite filter_app, length_app. simpl. lia. }
  destruct (decide (o ∈ (stored s).*1)) as [Hin|Hout].
  - destruct (find_by_id_Some _ _ Hin) as [r Hr]. rewrite Hr.
    eexists _, _. split; [reflexivity|]. rewrite stored_with_documents.
    rewrite <- remove_first_by_id by done.
    pose proof (remove_first_length _ _ _ Hr) as Hlen.
    rewrite bool_decide_eq_true_2 by done.
    split; [done|]. split; [simpl; lia|]. split; [done|]. apply Hsent.
  - rewrite find_by_id_None by done.
    eexists _, _. split; [reflexivity|]. rewrite stored_sent.
    rewrite bool_decide_eq_false_2 by done.
    assert (filter (λ r : record, r.1 ≠ o) (stored s) = stored s) as ->.
    { apply filter_all. intros r Hr <-. apply Hout. by apply list_elem_of_fmap_2. }
    split; [done|]. split; [done|]. split; [done|]. apply Hsent.
Qed.

(** The deletion tasks, awaited one after the other. *)
Lemma deletion_tasks_run (os : list oid) (s : MLDB) :
  NoDup (stored s).*1 →
  ∃ counts s',
    for_each (λ task, task) (deletion_task <$> os) s = (Ok counts, s') ∧
    stored s' = filter (λ r, r.1 ∉ os) (stored s) ∧
    sum_list counts + length (stored s') = length (stored s) ∧
    deletes_sent s' = length os + deletes_sent s.
Proof.
  revert s. induction os as [|o os IH]; intros s Hnd.
  - exists [], s. repeat split; simpl.
    rewrite filter_all; [done|]. intros r _. apply not_elem_of_nil.
  - destruct (deletion_task_run o s Hnd) as (n & s1 & Hrun & Hst1 & Hlen1 & _ & Hsent1).
    destruct (IH s1) as (counts & s' & Hrest & Hst & Hlen & Hsent).
    { rewrite Hst1. by apply NoDup_ids_filter. }
    exists (n :: counts), s'. simpl.
    rewrite (bind_ok _ _ _ _ _ Hrun), (bind_ok _ _ _ _ _ Hrest).
    split; [done|]. split; [|split; [lia|lia]].
    rewrite Hst, Hst1, list_filter_filter. apply list_filter_iff.
    intros r. rewrite not_elem_of_cons. split; intros [? ?]; by split.
Qed.

(** [asyncio.gather] may let the deletions reach the database in any order:
    each is one command, and every order leaves the same documents and the
    same total. *)
Lemma deletion_tasks_any_order (os os' : list oid) (s : MLDB) :
  os ≡ₚ os' → NoDup (stored s).*1 →
  ∃ counts counts' s1 s2,
    for_each (λ task, task) (deletion_task <$> os) s = (Ok counts, s1) ∧
    for_each (λ task, task) (deletion_task <$> os') s = (Ok counts', s2) ∧
    stored s1 = stored s2 ∧
    sum_list counts = sum_list counts'.
Proof.
  intros Hperm Hnd.
  destruct (deletion_tasks_run os s Hnd) as (counts & s1 & Hrun1 & Hst1 & Hlen1 & _).
  destruct (deletion_tasks_run os' s Hnd) as (counts' & s2 & Hrun2 & Hst2 & Hlen2 & _).
  exists counts, counts', s1, s2. split; [done|]. split; [done|].
  assert (stored s1 = stored s2) as Hsame.
  { rewrite Hst1, Hst2. apply list_filter_iff. intros r. by rewrite Hperm. }
  split; [done|]. rewrite Hsame in Hlen1. lia.
Qed.

Lemma complete_deletion_run (id_list : list value) (os : list oid) (s : MLDB) :
  mapM validate_experiment_id id_list = Some os →
  NoDup (stored s).*1 →
  ∃ n s',
    complete_deletion id_list s = (Ok n, s') ∧
    stored s' = filter (λ r, r.1 ∉ os) (stored s) ∧
    n + length (stored s') = length (stored s) ∧
    deletes_sent s' = length (remove_dups os) + deletes_sent s.
Proof.
  intros Hvalid Hnd. unfold complete_deletion, validated_id_set.
  rewrite Hvalid. simpl.
  destruct (ensure_indexes_deletes s) as (s1 & Hens & Hst1 & Hsent1).
  rewrite (bind_ok _ _ _ _ _ Hens).
  destruct (deletion_tasks_run (remove_dups os) s1) as (counts & s' & Hrun & Hst & Hlen & Hsent).
  { by rewrite Hst1. }
  rewrite (bind_ok _ _ _ _ _ Hrun).
  exists (sum_list counts), s'. split; [done|].
  rewrite Hst1 in Hst, Hlen. rewrite Hsent1 in Hsent.
  split; [|done].
  rewrite Hst. apply list_filter_iff. intros r. by rewrite elem_of_remove_dups.
Qed.

(** C6.  On identifiers that all validate, [complete_deletion] sends one
    hard delete per distinct identifier, leaves exactly the documents whose
    identifier is not listed, and returns the number of documents removed
    (a listed identifier that is not stored adds nothing); called again with
    the same list on the result, it removes nothing and returns 0. *)
Theorem complete_deletion_idempotent (id_list : list value) (os : list oid) (s : MLDB) :
  mapM validate_experiment_id id_list = Some os →
  NoDup (stored s).*1 →
  ∃ n s',
    complete_deletion id_list s = (Ok n, s') ∧
    stored s' = filter (λ r, r.1 ∉ os) (stored s) ∧
    n = length (filter (λ r, r.1 ∈ os) (stored s)) ∧
    n + length (stored s') = length (stored s) ∧
    deletes_sent s' = length (remove_dups os) + deletes_sent s ∧
    ∃ s'', complete_deletion id_list s' = (Ok 0, s'') ∧ stored s'' = stored s'.
Proof.
  intros Hvalid Hnd.
  destruct (complete_deletion_run id_list os s Hvalid Hnd)
    as (n & s' & Hrun & Hst & Hlen & Hsent).
  exists n, s'. split; [done|]. split; [done|].
  split.
  { pose proof (filter_app_complement (λ r : record, r.1 ∈ os) (stored s)) as Hperm.
    apply Permutation_length in Hperm. rewrite length_app in Hperm.
    rewrite Hst in Hlen. lia. }
  split; [done|]. split; [done|].
  destruct (complete_deletion_run id_list os s' Hvalid)
    as (n2 & s'' & Hrun2 & Hst2 & Hlen2 & _).
  { rewrite Hst. by apply NoDup_ids_filter. }
  assert (stored s'' = stored s') as Hsame.
  { rewrite Hst2. apply filter_all. intros r Hr.
    rewrite Hst in Hr. by apply list_elem_of_filter in Hr as [Hr _]. }
  rewrite Hsame in Hlen2. assert (n2 = 0) as -> by lia.
  by exists s''.
Qed.

(** ** Queries over the collection *)

Lemma bson_leb_total (a b : value) : bson_leb a b = true ∨ bson_leb b a = true.
Proof.
  destruct a, b; simpl; try (by left); try (by right).
  - destruct b, b0; simpl; auto.
  - destruct (Z.leb_spec z z0); [by left|right]. apply Z.leb_le. lia.
  - apply String.leb_total.
  - destruct (Z.leb_spec t t0); [by left|right]. apply Z.leb_le. lia.
  - destruct (N.leb_spec o o0); [by left|right]. apply N.leb_le. lia.
Qed.

#[local] Instance doc_le_total (spec : key_spec) : Total (doc_le spec).
Proof.
  intros d1 d2. unfold doc_le. induction spec as [|[k dir] spec IH]; [by left|].
  simpl. destruct dir.
  - destruct (bson_leb (sort_key k d1) (sort_key k d2)) eqn:H12,
             (bson_leb (sort_key k d2) (sort_key k d1)) eqn:H21; auto.
    destruct (bson_leb_total (sort_key k d1) (sort_key k d2)); congruence.
  - destruct (bson_leb (sort_key k d1) (sort_key k d2)) eqn:H12,
             (bson_leb (sort_key k d2) (sort_key k d1)) eqn:H21; auto.
    destruct (bson_leb_total (sort_key k d1) (sort_key k d2)); congruence.
Qed.



Lemma project_all (ds : list doc) : project None <$> ds = ds.
Proof. exact (list_fmap_id ds). Qed.

Lemma sort_docs_elem (spec : key_spec) (ds : list doc) (d : doc) :
  d ∈ sort_docs spec ds ↔ d ∈ ds.
Proof.
  unfold sort_docs. destruct spec; [done|]. by rewrite merge_sort_Permutation.
Qed.

Lemma limited_elem (n : N) (ds : list doc) (d : doc) : d ∈ limited n ds → d ∈ ds.
Proof.
  unfold limited. destruct (n =? 0)%N; [done|].
  intros H. by apply (subseteq_take (N.to_nat n) ds).
Qed.

(** Without a projection, the cursor only gives documents the filter
    selects. *)
Lemma cursor_result_elem (c : cursor) (rs : list record) (d : doc) :
  cur_projection c = None → d ∈ cursor_result c rs →
  ∃ r, r ∈ rs ∧ selects (cur_filter c) r = true ∧ d = as_doc r.
Proof.
  intros Hproj. unfold cursor_result. rewrite Hproj, project_all.
  intros Hd. apply limited_elem in Hd.
  assert (d ∈ sort_docs (cur_sort c)
                (as_doc <$> filter (λ r, selects (cur_filter c) r = true) rs)) as Hs.
  { by apply (subseteq_drop (N.to_nat (cur_skip c))). }
  apply sort_docs_elem, list_elem_of_fmap in Hs as (r & -> & Hr).
  apply list_elem_of_filter in Hr as [Hsel Hr]. by exists r.
Qed.




(** The cursor [iter_docs] opens, and what it yields from it. *)
Lemma iter_docs_run (filter : option doc) (skip limit : option N)
    (sort_by : option key_spec) (include_deleted : bool) (valid : doc) (s : MLDB) :
  validate_experiment_doc (dict_or_empty filter) = Some valid →
  ∃ c,
    cur_filter c = (if include_deleted then rename_key "id" "_id" valid
                    else <["deleted" := ne_true]> (rename_key "id" "_id" valid)) ∧
    cur_projection c = None ∧
    cur_sort c = default [("heartbeat", DESCENDING)] sort_by ∧
    (skip = None → cur_skip c = 0%N) ∧
    (limit = None → cur_limit c = 0%N) ∧
    iter_docs filter skip limit sort_by include_deleted s =
      bind (to_list c)
           (λ found, ret ((λ d, from_database_experiment_doc (Some d)) <$> found)) s.
Proof.
  intros Hvalid. unfold iter_docs.
  rewrite (bind_ok _ _ _ _ _ (validated_doc_run _ _ s Hvalid)). simpl.
  eexists. split; [|split; [|split; [|split; [|split; [|reflexivity]]]]].
  - by destruct include_deleted, skip as [n|], limit as [m|];
      try destruct (n =? 0)%N; try destruct (m =? 0)%N.
  - by destruct skip as [n|], limit as [m|];
      try destruct (n =? 0)%N; try destruct (m =? 0)%N.
  - by destruct skip as [n|], limit as [m|];
      try destruct (n =? 0)%N; try destruct (m =? 0)%N.
  - intros Hskip. subst skip. by destruct limit as [m|]; try destruct (m =? 0)%N.
  - intros Hlimit. subst limit. by destruct skip as [n|]; try destruct (n =? 0)%N.
Qed.

Lemma iter_docs_inv (filter : option doc) (skip limit : option N)
    (sort_by : option key_spec) (include_deleted : bool) (s s' : MLDB)
    (out : list (option doc)) :
  iter_docs filter skip limit sort_by include_deleted s = (Ok out, s') →
  ∃ valid c,
    validate_experiment_doc (dict_or_empty filter) = Some valid ∧
    cur_filter c = (if include_deleted then rename_key "id" "_id" valid
                    else <["deleted" := ne_true]> (rename_key "id" "_id" valid)) ∧
    cur_projection c = None ∧
    cur_sort c = default [("heartbeat", DESCENDING)] sort_by ∧
    out = (λ d, from_database_experiment_doc (Some d)) <$> cursor_result c (stored s).
Proof.
  intros Hrun.
  destruct (validate_experiment_doc (dict_or_empty filter)) as [valid|] eqn:Hvalid.
  - destruct (iter_docs_run filter skip limit sort_by include_deleted valid s Hvalid)
      as (c & Hq & Hproj & Hsort & _ & _ & Heq).
    exists valid, c. repeat split; try done.
    rewrite Heq in Hrun. unfold bind, to_list, send in Hrun.
    destruct (query_ok (cur_filter c)); simpl in Hrun; [|done].
    by injection Hrun as <- _.
  - unfold iter_docs, validated_doc, bind in Hrun. by rewrite Hvalid in Hrun.
Qed.




Lemma query_ok_excluding_deleted (q : doc) :
  query_ok q = true → query_ok (<["deleted" := ne_true]> q) = true.
Proof.
  unfold query_ok. rewrite !bool_decide_eq_true. intros Hq.
  apply map_Forall_insert_2; [by apply entry_ok_plain | done].
Qed.


(** ** Cascading soft delete *)

Lemma mark_all_ids (l : list oid) (rs : list record) : (mark_all l rs).*1 = rs.*1.
Proof.
  unfold mark_all. induction rs as [|r rs IH]; [done|].
  rewrite !fmap_cons, IH. f_equal. by destruct (bool_decide (r.1 ∈ l)).
Qed.

Lemma is_child_mark_deleted (p : oid) (r : record) :
  is_child p (mark_deleted r) = is_child p r.
Proof. unfold is_child, mark_deleted. simpl. by rewrite lookup_insert_ne. Qed.

(** Marking changes no link: the children of a record stay its children. *)
Lemma mark_all_children (l : list oid) (rs : list record) (p : oid) :
  children_ids (mark_all l rs) p = children_ids rs p.
Proof.
  unfold children_ids, mark_all. induction rs as [|r rs IH]; [done|].
  rewrite fmap_cons.
  assert (is_child p (if bool_decide (r.1 ∈ l) then mark_deleted r else r) = is_child p r)
    as Hc by (destruct (bool_decide (r.1 ∈ l)); [apply is_child_mark_deleted | done]).
  destruct (is_child p r) eqn:Hr.
  - rewrite !filter_cons_True by done. rewrite !fmap_cons, IH. f_equal.
    by destruct (bool_decide (r.1 ∈ l)).
  - rewrite !filter_cons_False by congruence. exact IH.
Qed.

Lemma mark_deleted_twice (r : record) : mark_deleted (mark_deleted r) = mark_deleted r.
Proof. unfold mark_deleted. simpl. by rewrite insert_insert_eq. Qed.

Lemma mark_all_app (l1 l2 : list oid) (rs : list record) :
  mark_all l2 (mark_all l1 rs) = mark_all (l1 ++ l2) rs.
Proof.
  unfold mark_all. rewrite <- list_fmap_compose. apply list_fmap_ext.
  intros i r Hi. simpl.
  destruct (decide (r.1 ∈ l1)) as [H1|H1], (decide (r.1 ∈ l2)) as [H2|H2].
  - rewrite (bool_decide_eq_true_2 (r.1 ∈ l1)) by done. simpl.
    rewrite !bool_decide_eq_true_2 by (done || (apply elem_of_app; by left)).
    apply mark_deleted_twice.
  - rewrite (bool_decide_eq_true_2 (r.1 ∈ l1)) by done. simpl.
    rewrite (bool_decide_eq_false_2 (r.1 ∈ l2)) by done.
    by rewrite bool_decide_eq_true_2 by (apply elem_of_app; by left).
  - rewrite (bool_decide_eq_false_2 (r.1 ∈ l1)) by done.
    by rewrite !bool_decide_eq_true_2 by (done || (apply elem_of_app; by right)).
  - rewrite (bool_decide_eq_false_2 (r.1 ∈ l1)) by done.
    rewrite (bool_decide_eq_false_2 (r.1 ∈ l2)) by done.
    rewrite bool_decide_eq_false_2; [done|]. rewrite elem_of_app. tauto.
Qed.

Lemma mark_all_nil (rs : list record) : mark_all [] rs = rs.
Proof.
  unfold mark_all. rewrite <- (list_fmap_id rs) at 2. apply list_fmap_ext.
  intros i r Hi. rewrite bool_decide_eq_false_2; [done|]. apply not_elem_of_nil.
Qed.

Lemma apply_set_deleted (r : record) :
  apply_set {["deleted" := VBool true]} r = mark_deleted r.
Proof.
  unfold apply_set, mark_deleted. f_equal.
  rewrite delete_id by done. by rewrite insert_union_singleton_l.
Qed.

(** Keys are unique: the update by identifier reaches the one record kept
    under it. *)
Lemma alter_first_by_id (rs : list record) (o : oid) :
  NoDup rs.*1 →
  alter_first (selects {["_id" := VId o]}) (apply_set {["deleted" := VBool true]}) rs
    = mark_all [o] rs.
Proof.
  induction rs as [|r rs IH]; intros Hnd; [done|].
  rewrite fmap_cons in Hnd. apply NoDup_cons in Hnd as [Hr Hnd].
  change (mark_all [o] (r :: rs))
    with ((if bool_decide (r.1 ∈ [o]) then mark_deleted r else r) :: mark_all [o] rs).
  cbn [alter_first]. rewrite selects_by_id.
  destruct (decide (r.1 = o)) as [Ho|Ho].
  - rewrite !bool_decide_eq_true_2 by (done || (subst; listed)).
    rewrite apply_set_deleted. f_equal. subst o.
    unfold mark_all. rewrite <- (list_fmap_id rs) at 1.
    apply list_fmap_ext. intros i r' Hr'. simpl.
    rewrite bool_decide_eq_false_2; [done|].
    intros Heq%list_elem_of_singleton. apply Hr. rewrite <- Heq.
    apply list_elem_of_fmap_2. by eapply list_elem_of_lookup_2.
  - rewrite (bool_decide_eq_false_2 (r.1 = o)) by done.
    rewrite (bool_decide_eq_false_2 (r.1 ∈ [o]))
      by (by intros Heq%list_elem_of_singleton).
    f_equal. by apply IH.
Qed.

Lemma mark_one_run (o : oid) (s : MLDB) :
  NoDup (stored s).*1 → o ∈ (stored s).*1 →
  update_one {["_id" := VId o]} {["deleted" := VBool true]} s =
    (Ok 1, with_documents (mark_all [o] (stored s)) (sent update_one_cmd s)).
Proof.
  intros Hnd Hin. rewrite update_one_run by apply query_ok_by_id.
  destruct (find_by_id_Some _ _ Hin) as [r ->].
  unfold set_allowed. rewrite lookup_singleton_ne by done.
  by rewrite alter_first_by_id.
Qed.

Lemma mark_one_absent (o : oid) (s : MLDB) :
  o ∉ (stored s).*1 →
  update_one {["_id" := VId o]} {["deleted" := VBool true]} s =
    (Ok 0, sent update_one_cmd s).
Proof.
  intros Hout. rewrite update_one_run by apply query_ok_by_id.
  by rewrite find_by_id_None.
Qed.

(** The cursor over the children of [o] gives their identifiers, in natural
    order. *)
Lemma children_run (o : oid) (s : MLDB) :
  ∃ cdocs,
    to_list (find {["parent_id" := VId o]} (Some ["_id"]) []) s
      = (Ok cdocs, sent find_cmd s) ∧
    Forall2 (λ (cd : doc) c, cd !! "_id" = Some (VId c)) cdocs (children_ids (stored s) o).
Proof.
  eexists. split; [apply to_list_run, query_ok_children|].
  unfold cursor_result, children_ids, selected. simpl.
  rewrite (list_filter_iff _ (λ r, is_child o r = true))
    by (intros r; by rewrite selects_children).
  induction (filter _ (stored s)) as [|r rs IH]; [constructor|].
  rewrite !fmap_cons. constructor; [|exact IH].
  apply map_lookup_filter_Some. split; [apply as_doc_id | by left].
Qed.

Lemma concat_fmap_VId (ls : list (list oid)) :
  concat (fmap (M:=list) VId <$> ls) = VId <$> concat ls.
Proof.
  induction ls as [|l ls IH]; [done|].
  rewrite fmap_cons. cbn [concat]. by rewrite IH, fmap_app.
Qed.

Lemma elem_of_concat {A} (x : A) (ls : list (list A)) :
  x ∈ concat ls ↔ ∃ l, x ∈ l ∧ l ∈ ls.
Proof.
  induction ls as [|l ls IH]; simpl.
  - split; [by intros ?%elem_of_nil | by intros (l & _ & ?%elem_of_nil)].
  - rewrite elem_of_app, IH. split.
    + intros [Hx|(l' & Hx & Hl')]; [exists l | exists l']; split; try done.
      * apply list_elem_of_here.
      * by apply list_elem_of_further.
    + intros (l' & Hx & [->|Hl']%elem_of_cons); [by left|right]. by exists l'.
Qed.

Lemma children_stored (rs : list record) (p c : oid) :
  c ∈ children_ids rs p → c ∈ rs.*1.
Proof.
  unfold children_ids. intros (r & -> & Hr)%list_elem_of_fmap.
  apply list_elem_of_filter in Hr as [_ Hr]. by apply list_elem_of_fmap_2.
Qed.

Lemma ranked_child (rs : list record) (rank : oid → nat) (p c : oid) :
  ranked rs rank = true → p ∈ rs.*1 → c ∈ children_ids rs p → rank c < rank p.
Proof.
  unfold ranked. intros Hranked (r & -> & Hr)%list_elem_of_fmap Hc.
  rewrite forallb_forall in Hranked.
  specialize (Hranked r (proj1 (list_elem_of_In _ _) Hr)).
  rewrite forallb_forall in Hranked.
  specialize (Hranked c (proj1 (list_elem_of_In _ _) Hc)).
  by apply Nat.ltb_lt in Hranked.
Qed.

(** The loop over the children, given what the nested calls do. *)
Lemma children_loop (rs0 : list record) (depth : nat)
    (Q : oid → list oid → Prop) (P : oid → Prop) :
  (∀ c L s, P c → stored s = mark_all L rs0 →
     ∃ l s', _mark_delete depth (VId c) s = (Ok (VId <$> l), s') ∧
             stored s' = mark_all l (stored s) ∧ Q c l) →
  ∀ (cs : list oid) (cdocs : list doc) L s,
    Forall P cs →
    Forall2 (λ (cd : doc) c, cd !! "_id" = Some (VId c)) cdocs cs →
    stored s = mark_all L rs0 →
    ∃ ls s',
      for_each (λ c, bind (getitem c "_id") (λ cid, _mark_delete depth cid)) cdocs s
        = (Ok (fmap (M:=list) VId <$> ls), s') ∧
      stored s' = mark_all (concat ls) (stored s) ∧
      Forall2 Q cs ls.
Proof.
  intros Hcall cs cdocs L s HP Hdocs. revert L s HP.
  induction Hdocs as [|cd c cdocs cs Hcd Hdocs IH]; intros L s HP Hs.
  - exists [], s. simpl. by rewrite mark_all_nil.
  - apply Forall_cons in HP as [Hc HP].
    destruct (Hcall c L s Hc Hs) as (l & s1 & Hrun & Hs1 & HQ).
    destruct (IH (L ++ l)%list s1 HP) as (ls & s' & Hloop & Hs' & HQs).
    { by rewrite Hs1, Hs, mark_all_app. }
    exists (l :: ls), s'. simpl.
    rewrite (getitem_run _ _ _ Hcd), bind_ret.
    rewrite (bind_ok _ _ _ _ _ Hrun), (bind_ok _ _ _ _ _ Hloop).
    split; [done|]. split; [|by constructor].
    by rewrite Hs', Hs1, mark_all_app.
Qed.

(** What a call of [_mark_delete] on a stored identifier does, in a
    collection of unique keys whose links go down a rank: with enough depth
    it returns the depth-first visit and the visited records carry the
    flag.  The collection [rs0] is the one the outermost call started from;
    the calls before this one marked the records in [L]. *)
Lemma _mark_delete_run (rs0 : list record) (rank : oid → nat) :
  NoDup rs0.*1 → ranked rs0 rank = true →
  ∀ depth o L s,
    o ∈ rs0.*1 → rank o < depth → stored s = mark_all L rs0 →
    ∃ l s',
      _mark_delete depth (VId o) s = (Ok (VId <$> l), s') ∧
      stored s' = mark_all l (stored s) ∧
      (preorder rs0 o l ∧ ∀ j, j ∈ l ↔ descendant rs0 o j).
Proof.
  intros Hnd Hranked. induction depth as [|depth IH]; intros o L s Ho Hrank Hs; [lia|].
  assert (NoDup (stored s).*1) as Hnd_s by (by rewrite Hs, mark_all_ids).
  assert (o ∈ (stored s).*1) as Ho_s by (by rewrite Hs, mark_all_ids).
  destruct (children_run o (with_documents (mark_all [o] (stored s))
                                            (sent update_one_cmd s)))
    as (cdocs & Hfind & Hcdocs).
  rewrite stored_with_documents, Hs, mark_all_app, mark_all_children in Hcdocs.
  destruct (children_loop rs0 depth
              (λ c l, preorder rs0 c l ∧ ∀ j, j ∈ l ↔ descendant rs0 c j)
              (λ c, c ∈ rs0.*1 ∧ rank c < depth))
    with (cs := children_ids rs0 o) (cdocs := cdocs) (L := (L ++ [o])%list)
         (s := sent find_cmd (with_documents (mark_all [o] (stored s))
                                             (sent update_one_cmd s)))
    as (ls & s' & Hloop & Hs' & Hls).
  { intros c L' s1 [Hc Hrc] Hs1. by apply (IH c L' s1). }
  { apply Forall_forall. intros c Hc. split; [by eapply children_stored|].
    pose proof (ranked_child _ _ _ _ Hranked Ho Hc). lia. }
  { exact Hcdocs. }
  { by rewrite stored_sent, stored_with_documents, Hs, mark_all_app. }
  exists (o :: concat ls), s'. split; [|split; [|split]].
  - cbn [_mark_delete].
    rewrite (bind_ok _ _ _ _ _ (mark_one_run o s Hnd_s Ho_s)).
    change (0 <? 1)%nat with true. cbv iota.
    rewrite (bind_ok _ _ _ _ _ Hfind), (bind_ok _ _ _ _ _ Hloop).
    unfold ret. by rewrite concat_fmap_VId, fmap_cons.
  - rewrite Hs', stored_sent, stored_with_documents. by rewrite mark_all_app.
  - constructor; [done|]. eapply Forall2_impl; [exact Hls|]. by intros c l [? _].
  - intros j. split.
    + intros [->|Hj]%elem_of_cons; [apply rtc_refl|].
      apply elem_of_concat in Hj as (l & Hj & Hl).
      apply list_elem_of_lookup in Hl as [i Hi].
      destruct (Forall2_lookup_r _ _ _ _ _ Hls Hi) as (c & Hc & _ & Hiff).
      eapply rtc_l; [|by apply Hiff].
      by eapply list_elem_of_lookup_2.
    + intros Hdesc. apply rtc_inv in Hdesc as [->|(c & Hc & Hdesc)]; [listed|].
      apply list_elem_of_further, elem_of_concat.
      apply list_elem_of_lookup in Hc as [i Hi].
      destruct (Forall2_lookup_l _ _ _ _ _ Hls Hi) as (l & Hl & _ & Hiff).
      exists l. split; [by apply Hiff | by eapply list_elem_of_lookup_2].
Qed.

Lemma record_of_mark_all (l : list oid) (rs : list record) (j : oid) :
  record_of (mark_all l rs) j =
    (λ f, if bool_decide (j ∈ l) then <["deleted" := VBool true]> f else f)
      <$> record_of rs j.
Proof.
  unfold record_of, mark_all. induction rs as [|r rs IH]; [done|].
  rewrite fmap_cons. cbn [List.find].
  assert ((if bool_decide (r.1 ∈ l) then mark_deleted r else r).1 = r.1) as ->
    by (by destruct (bool_decide (r.1 ∈ l))).
  destruct (decide (r.1 = j)) as [<-|Hne].
  - rewrite !bool_decide_eq_true_2 by done. simpl.
    by destruct (bool_decide (r.1 ∈ l)).
  - rewrite !(bool_decide_eq_false_2 (r.1 = j)) by done. exact IH.
Qed.

(** C1.  [mark_delete] on an identifier that is not stored returns the
    empty list and changes no document.  On a stored identifier, in a
    collection whose keys are unique and whose [parent_id] links form a
    forest lower than the allowed depth, it returns the depth-first visit
    from the target, target first: exactly the target and the documents
    reached from it by following [parent_id] links down; and every document
    listed carries [deleted = true] afterwards, whatever it carried before,
    the others being untouched. *)
Theorem mark_delete_cascade (depth : nat) (id : value) (o : oid) (s : MLDB) :
  validate_experiment_id id = Some o →
  (o ∉ (stored s).*1 → 0 < depth →
     ∃ s', mark_delete depth id s = (Ok [], s') ∧ stored s' = stored s) ∧
  (o ∈ (stored s).*1 →
     ∀ rank : oid → nat,
       NoDup (stored s).*1 → ranked (stored s) rank = true → rank o < depth →
       ∃ l s',
         mark_delete depth id s = (Ok (VId <$> l), s') ∧
         preorder (stored s) o l ∧
         head l = Some o ∧
         (∀ j, j ∈ l ↔ descendant (stored s) o j) ∧
         stored s' = mark_all l (stored s) ∧
         (∀ j f, j ∈ l → record_of (stored s') j = Some f →
                 f !! "deleted" = Some (VBool true))).
Proof.
  intros Hid. unfold mark_delete.
  rewrite (bind_ok _ _ _ _ _ (validated_id_run _ _ s Hid)).
  destruct (ensure_indexes_run s) as (s1 & Hens & Hs1).
  rewrite (bind_ok _ _ _ _ _ Hens). split.
  - intros Hout Hdepth. destruct depth as [|depth]; [lia|].
    cbn [_mark_delete]. rewrite <- Hs1 in Hout.
    rewrite (bind_ok _ _ _ _ _ (mark_one_absent o s1 Hout)).
    eexists. split; [reflexivity|]. by rewrite stored_sent.
  - intros Hin rank Hnd Hranked Hrank.
    destruct (_mark_delete_run (stored s) rank Hnd Hranked depth o [] s1)
      as (l & s' & Hrun & Hs' & Hpre & Hiff); [done|done|by rewrite mark_all_nil|].
    exists l, s'. rewrite Hs', Hs1.
    split; [done|]. split; [done|].
    split; [by inversion Hpre|]. split; [done|]. split; [done|].
    intros j f Hj. rewrite record_of_mark_all, bool_decide_eq_true_2 by done.
    destruct (record_of (stored s) j) as [f0|]; [|done].
    intros [= <-]. apply lookup_insert_eq.
Qed.

(** * Further properties of the module *)

(** ** Identifier fields *)

(** X1.  [pop_experiment_id] gives a document with neither "id" nor "_id"
    and every other field as it was; applied again it changes nothing. *)
Theorem pop_experiment_id_strips (d : doc) :
  pop_experiment_id d !! "id" = None ∧
  pop_experiment_id d !! "_id" = None ∧
  (∀ k, k ≠ "id" → k ≠ "_id" → pop_experiment_id d !! k = d !! k) ∧
  pop_experiment_id (pop_experiment_id d) = pop_experiment_id d.
Proof.
  unfold pop_experiment_id. split; [apply lookup_delete_eq|].
  split; [by rewrite lookup_delete_ne, lookup_delete_eq|].
  split; [|apply pop_experiment_id_twice].
  intros k Hid H_id. by rewrite !lookup_delete_ne.
Qed.

(** X2.  The two renames undo each other up to the key they overwrite: on a
    document holding "id", going out and coming back gives the document
    without its former "_id"; on a document holding "_id", coming in and
    going out gives the document without its former "id". *)
Theorem renames_drop_the_other_key (d : doc) :
  (is_Some (d !! "id") →
     from_database_experiment_doc (to_database_experiment_doc (Some d))
       = Some (delete "_id" d)) ∧
  (is_Some (d !! "_id") →
     to_database_experiment_doc (from_database_experiment_doc (Some d))
       = Some (delete "id" d)).
Proof.
  split; intros [v Hv]; simpl; f_equal; unfold rename_key; rewrite Hv;
    rewrite lookup_insert_eq, delete_insert_eq.
  - rewrite (delete_delete d), insert_delete_eq.
    apply insert_id. by rewrite lookup_delete_ne.
  - rewrite (delete_delete d), insert_delete_eq.
    apply insert_id. by rewrite lookup_delete_ne.
Qed.

(** ** Refusals before the database is reached *)

(** X3.  A malformed identifier is refused by [get], [update] and
    [mark_delete] before anything else happens: the store is as before,
    whatever the other arguments. *)
Theorem malformed_identifier_refused (id : value) (doc_fields : option doc)
    (depth : nat) (s : MLDB) :
  validate_experiment_id id = None →
  get id s = (Raise InvalidIdentifier, s) ∧
  update id doc_fields s = (Raise InvalidIdentifier, s) ∧
  mark_delete depth id s = (Raise InvalidIdentifier, s).
Proof.
  intros Hbad. unfold get, update, mark_delete, bind, validated_id.
  by rewrite Hbad.
Qed.

(** X4.  Fields the validator refuses stop [create], [update],
    [set_heartbeat], [set_finished] and [iter_docs] with [ValidationError]
    before any command is sent: the store is as before. *)
Theorem invalid_fields_refused (utcnow : Z) (name id status : value) (o : oid)
    (doc_fields : option doc) (skip limit : option N) (sort_by : option key_spec)
    (include_deleted : bool) (s : MLDB) :
  (validate_experiment_doc (pop_experiment_id (dict_or_empty doc_fields)) = None →
     create utcnow name doc_fields s = (Raise ValidationError, s) ∧
     (validate_experiment_id id = Some o →
        update id doc_fields s = (Raise ValidationError, s)) ∧
     set_heartbeat utcnow id doc_fields s = (Raise ValidationError, s) ∧
     (status ∈ [VStr "COMPLETED"; VStr "FAILED"] →
        set_finished utcnow id status doc_fields s = (Raise ValidationError, s))) ∧
  (validate_experiment_doc (dict_or_empty doc_fields) = None →
     iter_docs doc_fields skip limit sort_by include_deleted s
       = (Raise ValidationError, s)).
Proof.
  split.
  - intros Hbad. repeat split.
    + unfold create, bind, validated_doc. by rewrite Hbad.
    + intros Hid. unfold update, bind, validated_doc, validated_id. by rewrite Hid, Hbad.
    + unfold set_heartbeat, bind, validated_doc. by rewrite Hbad.
    + intros Hstatus. unfold set_finished.
      rewrite bool_decide_eq_false_2 by (by intros H; apply H).
      unfold bind, validated_doc. by rewrite Hbad.
  - intros Hfilter. unfold iter_docs, bind, validated_doc. by rewrite Hfilter.
Qed.

(** X5.  Identifier fields in the caller's mapping play no part: [create],
    [update], [set_heartbeat] and [set_finished] do the same with the
    mapping as with the mapping stripped of "id" and "_id", and with no
    mapping as with an empty one. *)
Theorem payload_identifiers_ignored (utcnow : Z) (name id status : value) (d : doc) :
  create utcnow name (Some d) = create utcnow name (Some (pop_experiment_id d)) ∧
  update id (Some d) = update id (Some (pop_experiment_id d)) ∧
  set_heartbeat utcnow id (Some d) = set_heartbeat utcnow id (Some (pop_experiment_id d)) ∧
  set_finished utcnow id status (Some d)
    = set_finished utcnow id status (Some (pop_experiment_id d)) ∧
  create utcnow name None = create utcnow name (Some ∅) ∧
  update id None = update id (Some ∅).
Proof.
  unfold create, update, set_heartbeat, set_finished, dict_or_empty. simpl.
  by rewrite pop_experiment_id_twice.
Qed.

(** ** Reading and updating one document *)

Lemma find_live_none (rs : list record) (o : oid) :
  (∀ r, r ∈ rs → r.1 = o → is_deleted r.2 = true) →
  List.find (selects (<["_id" := VId o]> {["deleted" := ne_true]})) rs = None.
Proof.
  intros Hnone. apply find_none_all. intros r Hr. rewrite selects_live.
  destruct (bool_decide (r.1 = o)) eqn:Ho; [|done].
  apply bool_decide_eq_true in Ho. by rewrite (Hnone r Hr Ho).
Qed.

Lemma alter_first_ids (p : record → bool) (g : record → record) (rs : list record) :
  (∀ r, (g r).1 = r.1) → (alter_first p g rs).*1 = rs.*1.
Proof.
  intros Hg. induction rs as [|r rs IH]; [done|]. simpl.
  destruct (p r); rewrite !fmap_cons; [by rewrite Hg | by rewrite IH].
Qed.

Lemma record_of_alter_first_other (rs : list record) (o o' : oid) (g : record → record) :
  o' ≠ o → (∀ r, (g r).1 = r.1) →
  record_of (alter_first (selects (<["_id" := VId o]> {["deleted" := ne_true]})) g rs) o'
    = record_of rs o'.
Proof.
  unfold record_of. intros Hne Hg. induction rs as [|[o1 f1] rs IH]; [done|].
  simpl. rewrite selects_live. simpl.
  destruct (bool_decide (o1 = o)) eqn:Ho; simpl.
  - apply bool_decide_eq_true in Ho. subst o1.
    destruct (is_deleted f1); simpl.
    + rewrite bool_decide_eq_false_2 by done. exact IH.
    + rewrite Hg. simpl. by rewrite bool_decide_eq_false_2 by done.
  - destruct (bool_decide (o1 = o')); [done | exact IH].
Qed.

(** [_update] of plain fields on a live document: the fields are merged
    into it. *)
Lemma _update_live (o : oid) (payload f : doc) (s : MLDB) :
  payload !! "_id" = None →
  plain_payload payload = true →
  record_of (stored s) o = Some f → is_deleted f = false →
  ∃ s',
    _update (VId o) payload s = (Ok tt, s') ∧
    record_of (stored s') o = Some (payload ∪ f) ∧
    (∀ o', o' ≠ o → record_of (stored s') o' = record_of (stored s) o') ∧
    (stored s').*1 = (stored s).*1.
Proof.
  intros Hpid Hsto Hrec Hlive. unfold _update.
  erewrite bind_ok; cycle 1.
  { rewrite update_one_run by apply query_ok_live.
    rewrite (find_live_record _ _ _ Hrec Hlive).
    rewrite set_allowed_plain by done. reflexivity. }
  simpl. eexists. split; [reflexivity|]. rewrite stored_with_documents.
  split; [|split].
  - rewrite (record_of_alter_first _ _ _ (apply_set payload) Hrec Hlive)
      by apply apply_set_id.
    by rewrite apply_set_plain.
  - intros o' Hne. apply record_of_alter_first_other; [done | apply apply_set_id].
  - apply alter_first_ids, apply_set_id.
Qed.

(** X6.  [get] reads and never writes.  It gives the live document stored
    under the identifier, with the identifier under "id" and no "_id"; it
    gives [None], without an error, when no document is stored under the
    identifier or the one stored there is soft-deleted. *)
Theorem get_finds_live_documents (id : value) (o : oid) (s : MLDB) :
  validate_experiment_id id = Some o →
  (∃ found s', get id s = (Ok found, s') ∧ stored s' = stored s) ∧
  (∀ f, record_of (stored s) o = Some f → is_deleted f = false →
     (get id s).1 = Ok (Some (<["id" := VId o]> (delete "_id" f)))) ∧
  ((∀ r, r ∈ stored s → r.1 = o → is_deleted r.2 = true) →
     (get id s).1 = Ok None).
Proof.
  intros Hid. rewrite (get_run _ _ _ Hid). split; [by eexists _, _|]. split.
  - intros f Hrec Hlive. rewrite (find_live_record _ _ _ Hrec Hlive). simpl.
    unfold rename_key, as_doc. simpl.
    by rewrite lookup_insert_eq, delete_insert_eq.
  - intros Hnone. by rewrite find_live_none.
Qed.

(** X7.  [update] on a live document, with fields that validate to a
    non-empty mapping of plain fields, merges them into the document: a
    field that is given takes the given value, the others keep theirs; no
    other document changes and no identifier does. *)
Theorem update_merges_fields (id : value) (o : oid) (doc_fields : option doc)
    (fields f : doc) (s : MLDB) :
  validate_experiment_id id = Some o →
  validate_experiment_doc (pop_experiment_id (dict_or_empty doc_fields)) = Some fields →
  fields ≠ ∅ →
  fields !! "_id" = None →
  storable fields = true →
  record_of (stored s) o = Some f →
  is_deleted f = false →
  ∃ s',
    update id doc_fields s = (Ok tt, s') ∧
    record_of (stored s') o = Some (fields ∪ f) ∧
    (∀ k v, fields !! k = Some v → (fields ∪ f) !! k = Some v) ∧
    (∀ k, fields !! k = None → (fields ∪ f) !! k = f !! k) ∧
    (∀ o', o' ≠ o → record_of (stored s') o' = record_of (stored s) o') ∧
    (stored s').*1 = (stored s).*1.
Proof.
  intros Hid Hvalid Hne Hpid Hsto Hrec Hlive. unfold update.
  rewrite (bind_ok _ _ _ _ _ (validated_id_run _ _ s Hid)).
  rewrite (bind_ok _ _ _ _ _ (validated_doc_run _ _ s Hvalid)).
  destruct (ensure_indexes_run s) as (s1 & Hrun & Hst).
  rewrite (bind_ok _ _ _ _ _ Hrun), bool_decide_eq_true_2 by done.
  rewrite <- Hst in Hrec.
  assert (plain_payload fields = true) as Hplain
    by (unfold plain_payload; by rewrite Hsto, bool_decide_eq_true_2).
  destruct (_update_live o fields f s1 Hpid Hplain Hrec Hlive)
    as (s' & Hupd & Hnew & Hother & Hids).
  exists s'. rewrite Hst in Hother, Hids.
  split; [exact Hupd|]. split; [exact Hnew|].
  split; [|split; [|split; [exact Hother | exact Hids]]].
  - intros k v Hk. by apply lookup_union_Some_l.
  - intros k Hk. by apply lookup_union_r.
Qed.

(** X8.  [set_heartbeat] with plain fields, on a live document stored under
    the ObjectId it is given, sets [heartbeat] to the current time, whatever
    the caller's fields say, and merges the caller's other fields in. *)
Theorem set_heartbeat_forces_heartbeat (utcnow : Z) (o : oid)
    (doc_fields : option doc) (fields f : doc) (s : MLDB) :
  validate_experiment_doc (pop_experiment_id (dict_or_empty doc_fields)) = Some fields →
  fields !! "_id" = None →
  storable fields = true →
  record_of (stored s) o = Some f →
  is_deleted f = false →
  ∃ s' f',
    set_heartbeat utcnow (VId o) doc_fields s = (Ok tt, s') ∧
    record_of (stored s') o = Some f' ∧
    f' !! "heartbeat" = Some (VTime utcnow) ∧
    (∀ k, k ≠ "heartbeat" →
          f' !! k = match fields !! k with Some v => Some v | None => f !! k end) ∧
    (∀ o', o' ≠ o → record_of (stored s') o' = record_of (stored s) o').
Proof.
  intros Hvalid Hpid Hsto Hrec Hlive. unfold set_heartbeat.
  rewrite (bind_ok _ _ _ _ _ (validated_doc_run _ _ s Hvalid)).
  destruct (ensure_indexes_run s) as (s1 & Hrun & Hst).
  rewrite (bind_ok _ _ _ _ _ Hrun). cbv zeta. rewrite <- Hst in Hrec.
  destruct (_update_live o (<["heartbeat" := VTime utcnow]> fields) f s1)
    as (s' & Hupd & Hnew & Hother & _);
    [by rewrite lookup_insert_ne | by apply plain_payload_insert | done | done |].
  exists s', (<["heartbeat" := VTime utcnow]> fields ∪ f). rewrite Hst in Hother.
  split; [done|]. split; [done|]. split; [|split; [|done]].
  - apply lookup_union_Some_l, lookup_insert_eq.
  - intros k Hk. destruct (fields !! k) as [v|] eqn:Hfk.
    + apply lookup_union_Some_l. by rewrite lookup_insert_ne.
    + rewrite lookup_union_r; [done|]. by rewrite lookup_insert_ne.
Qed.






(** ** Index manager *)

Lemma replicate_as_fmap {A B} (l : list A) (b : B) :
  replicate (length l) b = (λ _, b) <$> l.
Proof.
  induction l as [|x l IH]; [done|].
  rewrite fmap_cons. cbn [length replicate]. f_equal. exact IH.
Qed.

Lemma zip_with_fmap_l {A B C} (h : B → A → C) (g : A → B) (l : list A) :
  zip_with h (g <$> l) l = (λ x, h (g x) x) <$> l.
Proof.
  induction l as [|x l IH]; [done|].
  rewrite !fmap_cons. cbn [zip_with]. f_equal. exact IH.
Qed.

Lemma filter_zip_fmap {A} (g : A → bool) (l : list A) :
  (filter (λ ci : bool * A, ci.1 = false) (zip (g <$> l) l)).*2
    = filter (λ x, g x = false) l.
Proof.
  induction l as [|x l IH]; [done|].
  change (zip (g <$> x :: l) (x :: l)) with ((g x, x) :: zip (g <$> l) l).
  destruct (g x) eqn:Hg.
  - rewrite !filter_cons_False by (simpl; congruence). exact IH.
  - rewrite !filter_cons_True by done. rewrite fmap_cons. simpl. by rewrite IH.
Qed.

(** The flags of the loop over the existing indexes: an index is flagged
    when its key is the key of one of them. *)
Lemma created_flags (indexes information : list key_spec) (g : key_spec → bool) :
  foldl (λ flags index_info,
           zip_with (λ (flag : bool) index_to_create,
                       if bool_decide (index_to_create = index_info) then true else flag)
                    flags indexes)
        (g <$> indexes) information
    = (λ ix, g ix || bool_decide (ix ∈ information)) <$> indexes.
Proof.
  revert g. induction information as [|info information IH]; intros g.
  - simpl. apply list_fmap_ext. intros i ix _. simpl. by rewrite orb_false_r.
  - cbn [foldl]. rewrite zip_with_fmap_l, IH. apply list_fmap_ext. intros i ix _.
    cbv beta. destruct (decide (ix = info)) as [->|Hne].
    + rewrite (bool_decide_eq_true_2 (info = info)) by done.
      rewrite (bool_decide_eq_true_2 (info ∈ info :: information))
        by apply list_elem_of_here.
      by rewrite orb_true_r.
    + rewrite (bool_decide_eq_false_2 (ix = info)) by done.
      destruct (g ix); [done|]. simpl. apply bool_decide_ext.
      rewrite elem_of_cons. split; [by right | by intros [?|?]].
Qed.

Lemma index_models_missing (indexes information : list key_spec) :
  (filter (λ ci : bool * key_spec, ci.1 = false)
     (zip (foldl (λ flags index_info,
                    zip_with (λ (flag : bool) index_to_create,
                                if bool_decide (index_to_create = index_info)
                                then true else flag)
                             flags indexes)
                 (replicate (length indexes) false) information)
          indexes)).*2
    = filter (λ ix, ix ∉ information) indexes.
Proof.
  rewrite replicate_as_fmap, created_flags, filter_zip_fmap.
  apply list_filter_iff. intros ix. simpl.
  rewrite bool_decide_eq_false. done.
Qed.

Lemma filter_missing_twice (keys indexes : list key_spec) :
  filter (λ k, k ∉ keys) (filter (λ k, k ∉ keys) indexes) = filter (λ k, k ∉ keys) indexes.
Proof.
  apply filter_all. intros k Hk. by apply list_elem_of_filter in Hk as [Hk _].
Qed.

(** What [ensure_mongo_indexes] leaves behind, command by command. *)
Lemma ensure_mongo_indexes_effect (indexes : list key_spec) (s : MLDB) :
  ensure_mongo_indexes indexes s =
    (Ok tt,
     match indexes with
     | [] => s
     | _ =>
         match filter (λ k, k ∉ index_keys (_collection s)) indexes with
         | [] => sent index_information_cmd s
         | missing =>
             MkMLDB (Mongo (stored s)
                           (index_keys (_collection s) ++ missing)
                           (commands (_collection s)
                              ++ [index_information_cmd; create_indexes_cmd]))
                    (_indexes_ensured s)
         end
     end).
Proof.
  unfold ensure_mongo_indexes. destruct indexes as [|ix indexes]; [done|].
  unfold index_information, send. unfold bind.
  change (index_keys (_collection (sent index_information_cmd s)))
    with (index_keys (_collection s)).
  rewrite index_models_missing.
  destruct (filter _ (ix :: indexes)) as [|m missing] eqn:Hmissing; [done|].
  unfold create_indexes, send, bind, stored. simpl.
  rewrite <- Hmissing, filter_missing_twice, <- app_assoc. done.
Qed.

Lemma ensure_mongo_indexes_creates_missing_aux (indexes : list key_spec) (s : MLDB) :
  ∃ s',
    ensure_mongo_indexes indexes s = (Ok tt, s') ∧
    (∀ k, k ∈ indexes → k ∈ index_keys (_collection s')) ∧
    stored s' = stored s.
Proof.
  eexists. split; [apply ensure_mongo_indexes_effect|].
  destruct indexes as [|ix indexes]; [split; [by intros k ?%elem_of_nil | done]|].
  destruct (filter _ (ix :: indexes)) as [|m missing] eqn:Hf.
  - split; [|done]. intros k Hk.
    destruct (decide (k ∈ index_keys (_collection s))) as [|Hout]; [done|].
    assert (k ∈ filter (λ k, k ∉ index_keys (_collection s)) (ix :: indexes)) as Hin
      by (by apply list_elem_of_filter).
    rewrite Hf in Hin. by apply elem_of_nil in Hin.
  - split; [|done]. intros k Hk. simpl. rewrite <- Hf, elem_of_app, list_elem_of_filter.
    destruct (decide (k ∈ index_keys (_collection s))); [by left | by right].
Qed.

(** X11.  [ensure_mongo_indexes] creates exactly the requested indexes whose
    key no existing index has, in the order requested and in one
    [create_indexes] call; afterwards every requested index exists, and the
    existing ones are kept.  With nothing requested it does nothing; with
    nothing missing it only reads the index information.  It never touches a
    document. *)
Theorem ensure_mongo_indexes_creates_missing (indexes : list key_spec) (s : MLDB) :
  ∃ s',
    ensure_mongo_indexes indexes s = (Ok tt, s') ∧
    index_keys (_collection s')
      = (index_keys (_collection s)
           ++ filter (λ k, k ∉ index_keys (_collection s)) indexes)%list ∧
    (∀ k, k ∈ indexes → k ∈ index_keys (_collection s')) ∧
    stored s' = stored s ∧
    (indexes = [] → s' = s) ∧
    (indexes ≠ [] → Forall (λ k, k ∈ index_keys (_collection s)) indexes →
       s' = sent index_information_cmd s) ∧
    (¬ Forall (λ k, k ∈ index_keys (_collection s)) indexes →
       commands (_collection s')
         = (commands (_collection s) ++ [index_information_cmd; create_indexes_cmd])%list).
Proof.
  eexists. split; [apply ensure_mongo_indexes_effect|].
  assert (Forall (λ k, k ∈ index_keys (_collection s)) indexes ↔
          filter (λ k, k ∉ index_keys (_collection s)) indexes = []) as Hall.
  { split.
    - intros Hall. induction Hall as [|k ks Hk _ IH]; [done|].
      by rewrite filter_cons_False by (by intros H; apply H).
    - intros Hnil. apply Forall_forall. intros k Hk.
      destruct (decide (k ∈ index_keys (_collection s))) as [|Hout]; [done|].
      assert (k ∈ filter (λ k, k ∉ index_keys (_collection s)) indexes) as Hin
        by (by apply list_elem_of_filter).
      rewrite Hnil in Hin. by apply elem_of_nil in Hin. }
  assert (index_keys (_collection
            match indexes with
            | [] => s
            | _ =>
                match filter (λ k, k ∉ index_keys (_collection s)) indexes with
                | [] => sent index_information_cmd s
                | missing =>
                    MkMLDB (Mongo (stored s) (index_keys (_collection s) ++ missing)
                                  (commands (_collection s)
                                     ++ [index_information_cmd; create_indexes_cmd]))
                           (_indexes_ensured s)
                end
            end)
          = (index_keys (_collection s)
               ++ filter (λ k, k ∉ index_keys (_collection s)) indexes)%list) as Hkeys.
  { destruct indexes as [|ix indexes]; [by rewrite app_nil_r|].
    destruct (filter _ (ix :: indexes)); [by rewrite app_nil_r | done]. }
  split; [exact Hkeys|]. split; [|split; [|split; [|split]]].
  - intros k Hk. rewrite Hkeys, elem_of_app, list_elem_of_filter.
    destruct (decide (k ∈ index_keys (_collection s))); [by left | by right].
  - destruct indexes as [|ix indexes]; [done|].
    by destruct (filter _ (ix :: indexes)).
  - by intros ->.
  - intros Hne Hpresent. apply Hall in Hpresent.
    destruct indexes as [|ix indexes]; [done|]. by rewrite Hpresent.
  - intros Hmissing. destruct indexes as [|ix indexes]; [by destruct Hmissing|].
    destruct (filter _ (ix :: indexes)) eqn:Hf; [|done].
    destruct Hmissing. by apply Hall.
Qed.

(** X12.  [ensure_indexes] does its work once per store object: the first
    call leaves the ten required indexes in place and sets the flag; with
    the flag set it does nothing at all, so a second call sends no command.
    It never touches a document. *)
Theorem ensure_indexes_once (s : MLDB) :
  ∃ s',
    ensure_indexes s = (Ok tt, s') ∧
    _indexes_ensured s' = true ∧
    stored s' = stored s ∧
    (_indexes_ensured s = false →
       ∀ k, k ∈ required_indexes → k ∈ index_keys (_collection s')) ∧
    (_indexes_ensured s = true → s' = s) ∧
    ensure_indexes s' = (Ok tt, s').
Proof.
  unfold ensure_indexes at 1. destruct (_indexes_ensured s) eqn:Hflag.
  - exists s. repeat split; try done. unfold ensure_indexes. by rewrite Hflag.
  - destruct (ensure_mongo_indexes_creates_missing_aux required_indexes s)
      as (s1 & Hrun & Hkeys & Hst).
    rewrite (bind_ok _ _ _ _ _ Hrun). eexists. split; [reflexivity|].
    split; [done|]. split; [done|]. split; [by intros _|]. split; [done|].
    reflexivity.
Qed.

(** ** The soft delete and what follows it *)

(** [mark_delete] on a stored identifier, in a forest [rs0] with unique keys
    of which some records may already carry the flag. *)
Lemma mark_delete_run_from (rs0 : list record) (L : list oid) (depth : nat) (id : value)
    (o : oid) (rank : oid → nat) (s : MLDB) :
  validate_experiment_id id = Some o →
  stored s = mark_all L rs0 →
  o ∈ rs0.*1 → NoDup rs0.*1 → ranked rs0 rank = true → rank o < depth →
  ∃ l s',
    mark_delete depth id s = (Ok (VId <$> l), s') ∧
    stored s' = mark_all l (stored s) ∧
    preorder rs0 o l ∧
    (∀ j, j ∈ l ↔ descendant rs0 o j).
Proof.
  intros Hid Hs Hin Hnd Hranked Hrank. unfold mark_delete.
  rewrite (bind_ok _ _ _ _ _ (validated_id_run _ _ s Hid)).
  destruct (ensure_indexes_run s) as (s1 & Hens & Hs1).
  rewrite (bind_ok _ _ _ _ _ Hens).
  destruct (_mark_delete_run rs0 rank Hnd Hranked depth o L s1)
    as (l & s' & Hrun & Hs' & Hpre & Hiff); [done|done|by rewrite Hs1|].
  exists l, s'. by rewrite Hs', Hs1.
Qed.

Lemma mark_delete_run (depth : nat) (id : value) (o : oid) (rank : oid → nat) (s : MLDB) :
  validate_experiment_id id = Some o →
  o ∈ (stored s).*1 → NoDup (stored s).*1 → ranked (stored s) rank = true →
  rank o < depth →
  ∃ l s',
    mark_delete depth id s = (Ok (VId <$> l), s') ∧
    stored s' = mark_all l (stored s) ∧
    preorder (stored s) o l ∧
    (∀ j, j ∈ l ↔ descendant (stored s) o j).
Proof.
  intros Hid Hin Hnd Hranked Hrank.
  apply (mark_delete_run_from (stored s) [] depth id o rank s); try done.
  by rewrite mark_all_nil.
Qed.

Lemma find_live_marked (l : list oid) (rs : list record) (j : oid) :
  j ∈ l →
  List.find (selects (<["_id" := VId j]> {["deleted" := ne_true]})) (mark_all l rs) = None.
Proof.
  intros Hj. apply find_live_none. intros r Hr Hrj.
  unfold mark_all in Hr. apply list_elem_of_fmap in Hr as (r0 & -> & _).
  destruct (decide (r0.1 ∈ l)) as [Hin|Hout].
  - rewrite bool_decide_eq_true_2 by done.
    unfold is_deleted, mark_deleted. simpl. by rewrite lookup_insert_eq.
  - rewrite bool_decide_eq_false_2 in Hrj by done. by subst j.
Qed.

Lemma find_live_unmarked (l : list oid) (rs : list record) (j : oid) :
  j ∉ l →
  List.find (selects (<["_id" := VId j]> {["deleted" := ne_true]})) (mark_all l rs)
    = List.find (selects (<["_id" := VId j]> {["deleted" := ne_true]})) rs.
Proof.
  intros Hj. unfold mark_all. induction rs as [|r rs IH]; [done|].
  rewrite fmap_cons. cbn [List.find]. rewrite !selects_live.
  destruct (decide (r.1 ∈ l)) as [Hin|Hout].
  - rewrite (bool_decide_eq_true_2 (r.1 ∈ l)) by done. simpl.
    rewrite !(bool_decide_eq_false_2 (r.1 = j)) by (by intros <-). exact IH.
  - rewrite (bool_decide_eq_false_2 (r.1 ∈ l)) by done.
    destruct (bool_decide (r.1 = j) && negb (is_deleted r.2)); [done | exact IH].
Qed.

(** X13.  After [mark_delete], [get] gives [None] for every identifier in
    the returned list, and for any other identifier what it gave before. *)
Theorem get_after_mark_delete (depth : nat) (id : value) (o : oid)
    (rank : oid → nat) (s : MLDB) :
  validate_experiment_id id = Some o →
  (∀ j, validate_experiment_id (VId j) = Some j) →
  o ∈ (stored s).*1 → NoDup (stored s).*1 → ranked (stored s) rank = true →
  rank o < depth →
  ∃ l s',
    mark_delete depth id s = (Ok (VId <$> l), s') ∧
    (∀ j, j ∈ l → (get (VId j) s').1 = Ok None) ∧
    (∀ j, j ∉ l → (get (VId j) s').1 = (get (VId j) s).1).
Proof.
  intros Hid Hoids Hin Hnd Hranked Hrank.
  destruct (mark_delete_run depth id o rank s Hid Hin Hnd Hranked Hrank)
    as (l & s' & Hrun & Hs' & _ & _).
  exists l, s'. split; [exact Hrun|]. split.
  - intros j Hj. rewrite (get_run _ _ _ (Hoids j)), Hs'. simpl.
    by rewrite find_live_marked.
  - intros j Hj. rewrite !(get_run _ _ _ (Hoids j)), Hs'. simpl.
    by rewrite find_live_unmarked.
Qed.

Lemma Forall2_functional {A B} (P : A → B → Prop) (xs : list A) (ys1 ys2 : list B) :
  (∀ x y1 y2, x ∈ xs → P x y1 → P x y2 → y1 = y2) →
  Forall2 P xs ys1 → Forall2 P xs ys2 → ys1 = ys2.
Proof.
  intros Hfun H1. revert ys2. induction H1 as [|x y1 xs ys1 Hx _ IH]; intros ys2 H2.
  - by apply Forall2_nil_inv_l in H2.
  - apply Forall2_cons_inv_l in H2 as (y2 & ys2' & Hy2 & H2 & ->).
    f_equal.
    + eapply Hfun; [apply list_elem_of_here | done | done].
    + apply IH; [|done]. intros x' z1 z2 Hx'. apply Hfun. by apply list_elem_of_further.
Qed.

(** In a forest the depth-first visit is one list. *)
Lemma preorder_functional (rs : list record) (rank : oid → nat) :
  ranked rs rank = true →
  ∀ n o l1 l2, rank o < n → preorder rs o l1 → preorder rs o l2 → l1 = l2.
Proof.
  intros Hranked. induction n as [|n IH]; intros o l1 l2 Hrank H1 H2; [lia|].
  inversion H1 as [o1 Hout1 | o1 ls1 Hin1 Hls1]; subst;
    inversion H2 as [o2 Hout2 | o2 ls2 Hin2 Hls2]; subst; try done.
  f_equal. f_equal. eapply Forall2_functional; [|exact Hls1|exact Hls2].
  intros c m1 m2 Hc. apply IH.
  pose proof (ranked_child _ _ _ _ Hranked Hin1 Hc). lia.
Qed.

Lemma mark_all_same_members (l1 l2 : list oid) (rs : list record) :
  (∀ j, j ∈ l1 ↔ j ∈ l2) → mark_all l1 rs = mark_all l2 rs.
Proof.
  intros Hiff. unfold mark_all. apply list_fmap_ext. intros i r _.
  by rewrite (bool_decide_ext _ _ (Hiff r.1)).
Qed.

(** X14.  [mark_delete] can be repeated: a second call on the same
    identifier walks the same documents, returns the same list and leaves
    the collection as the first call left it. *)
Theorem mark_delete_twice (depth : nat) (id : value) (o : oid)
    (rank : oid → nat) (s : MLDB) :
  validate_experiment_id id = Some o →
  o ∈ (stored s).*1 → NoDup (stored s).*1 → ranked (stored s) rank = true →
  rank o < depth →
  ∃ l s' s'',
    mark_delete depth id s = (Ok (VId <$> l), s') ∧
    mark_delete depth id s' = (Ok (VId <$> l), s'') ∧
    stored s'' = stored s'.
Proof.
  intros Hid Hin Hnd Hranked Hrank.
  destruct (mark_delete_run depth id o rank s Hid Hin Hnd Hranked Hrank)
    as (l & s' & Hrun & Hs' & Hpre & _).
  destruct (mark_delete_run_from (stored s) l depth id o rank s' Hid Hs' Hin Hnd
              Hranked Hrank)
    as (l2 & s'' & Hrun2 & Hs'' & Hpre2 & _).
  assert (l2 = l) as -> by (by eapply preorder_functional).
  exists l, s', s''. split; [done|]. split; [done|].
  rewrite Hs'', Hs', mark_all_app. apply mark_all_same_members.
  intros j. rewrite elem_of_app. split; [by intros [?|?] | by left].
Qed.
Lemma only_marks_refl (s : MLDB) : only_marks s s.
Proof. exists []. by rewrite mark_all_nil. Qed.

Lemma only_marks_same (s s' : MLDB) : stored s' = stored s → only_marks s s'.
Proof. intros Hs. exists []. by rewrite mark_all_nil. Qed.

Lemma only_marks_trans (s1 s2 s3 : MLDB) :
  only_marks s1 s2 → only_marks s2 s3 → only_marks s1 s3.
Proof.
  intros [L1 H1] [L2 H2]. exists (L1 ++ L2)%list. by rewrite H2, H1, mark_all_app.
Qed.

Lemma only_marks_unique_keys (s s' : MLDB) :
  only_marks s s' → unique_keys s → unique_keys s'.
Proof. intros [L HL]. unfold unique_keys. by rewrite HL, mark_all_ids. Qed.

Lemma mark_all_absent (l : list oid) (rs : list record) :
  (∀ j, j ∈ l → j ∉ rs.*1) → mark_all l rs = rs.
Proof.
  intros Habs. unfold mark_all. rewrite <- (list_fmap_id rs) at 2.
  apply list_fmap_ext. intros i r Hr. simpl.
  rewrite bool_decide_eq_false_2; [done|]. intros Hin. apply (Habs _ Hin).
  apply list_elem_of_fmap_2. by eapply list_elem_of_lookup_2.
Qed.

(** With unique keys, setting the flag on the first record a filter selects
    sets it on the records of one key at most. *)
Lemma alter_first_marks (p : record → bool) (g : record → record) (rs : list record) :
  (∀ r, g r = mark_deleted r) → NoDup rs.*1 →
  ∃ L, (∀ j, j ∈ L → j ∈ rs.*1) ∧ alter_first p g rs = mark_all L rs.
Proof.
  intros Hg. induction rs as [|r rs IH]; intros Hnd.
  - exists []. split; [by intros j ?%elem_of_nil | done].
  - rewrite fmap_cons in Hnd. apply NoDup_cons in Hnd as [Hr Hnd].
    cbn [alter_first]. destruct (p r).
    + exists [r.1]. split.
      * intros j ->%list_elem_of_singleton. rewrite fmap_cons. apply list_elem_of_here.
      * change (mark_all [r.1] (r :: rs))
          with ((if bool_decide (r.1 ∈ [r.1]) then mark_deleted r else r)
                  :: mark_all [r.1] rs).
        rewrite bool_decide_eq_true_2 by apply list_elem_of_here.
        rewrite Hg, mark_all_absent; [done|]. by intros j ->%list_elem_of_singleton.
    + destruct (IH Hnd) as (L & HL & Heq). exists L. split.
      * intros j Hj. rewrite fmap_cons. by apply list_elem_of_further, HL.
      * change (mark_all L (r :: rs))
          with ((if bool_decide (r.1 ∈ L) then mark_deleted r else r) :: mark_all L rs).
        rewrite bool_decide_eq_false_2 by (intros Hin; by apply Hr, HL).
        by rewrite Heq.
Qed.

Lemma update_deleted_only_marks (q : doc) (s : MLDB) :
  unique_keys s → only_marks s (update_one q {["deleted" := VBool true]} s).2.
Proof.
  intros Hnd. unfold update_one, bind, send. simpl.
  destruct (query_ok q); [|by apply only_marks_same].
  simpl. destruct (List.find _ _) as [r|]; [|by apply only_marks_same].
  unfold set_allowed. rewrite lookup_singleton_ne by done. simpl.
  destruct (alter_first_marks (selects q) (apply_set {["deleted" := VBool true]})
              (stored s) apply_set_deleted Hnd) as (L & _ & HL).
  exists L. exact HL.
Qed.

Lemma only_marks_bind {A B} (m : M A) (k : A → M B) (s : MLDB) :
  unique_keys s →
  only_marks s (m s).2 →
  (∀ a s1, unique_keys s1 → only_marks s1 (k a s1).2) →
  only_marks s (bind m k s).2.
Proof.
  intros Hnd Hm Hk. unfold bind. destruct (m s) as [[a|e] s1]; simpl in *; [|done].
  eapply only_marks_trans; [exact Hm|]. apply Hk. by eapply only_marks_unique_keys.
Qed.

Lemma only_marks_for_each {A B} (body : A → M B) (l : list A) :
  (∀ x s, unique_keys s → only_marks s (body x s).2) →
  ∀ s, unique_keys s → only_marks s (for_each body l s).2.
Proof.
  intros Hbody. induction l as [|x l IH]; intros s Hnd; [apply only_marks_refl|].
  cbn [for_each]. apply only_marks_bind; [done | by apply Hbody |].
  intros y s1 Hnd1. apply only_marks_bind; [done | by apply IH |].
  intros ys s2 _. apply only_marks_refl.
Qed.

Lemma to_list_only_marks (c : cursor) (s : MLDB) : only_marks s (to_list c s).2.
Proof.
  unfold to_list, bind, send. simpl.
  destruct (query_ok (cur_filter c)); by apply only_marks_same.
Qed.

Lemma getitem_state (d : doc) (k : string) (s : MLDB) : (getitem d k s).2 = s.
Proof. unfold getitem. by destruct (d !! k). Qed.

(** Whatever it is called on and however it ends, [_mark_delete] only sets
    [deleted] flags. *)
Lemma _mark_delete_only_marks (depth : nat) :
  ∀ id s, unique_keys s → only_marks s (_mark_delete depth id s).2.
Proof.
  induction depth as [|depth IH]; intros id s Hnd; [apply only_marks_refl|].
  cbn [_mark_delete]. apply only_marks_bind; [done | by apply update_deleted_only_marks |].
  intros matched s1 Hnd1. destruct (0 <? matched)%nat; [|apply only_marks_refl].
  apply only_marks_bind; [done | apply to_list_only_marks |].
  intros children s2 Hnd2. apply only_marks_bind; [done | | intros; apply only_marks_refl].
  apply only_marks_for_each; [|done]. intros c s3 Hnd3.
  apply only_marks_bind; [done | rewrite getitem_state; apply only_marks_refl |].
  intros cid s4 Hnd4. by apply IH.
Qed.

(** X15.  [mark_delete] only ever sets [deleted] flags, however it ends
    (also when it raises midway): afterwards every stored document is as
    before or as before with [deleted = true]; none is added or removed, no
    identifier and no parent link changes. *)
Theorem mark_delete_only_sets_flags (depth : nat) (id : value) (s : MLDB) :
  NoDup (stored s).*1 →
  ∃ L,
    stored (mark_delete depth id s).2 = mark_all L (stored s) ∧
    (stored (mark_delete depth id s).2).*1 = (stored s).*1 ∧
    (∀ p, children_ids (stored (mark_delete depth id s).2) p = children_ids (stored s) p) ∧
    (∀ j, record_of (stored (mark_delete depth id s).2) j = record_of (stored s) j ∨
          record_of (stored (mark_delete depth id s).2) j
            = <["deleted" := VBool true]> <$> record_of (stored s) j).
Proof.
  intros Hnd.
  assert (only_marks s (mark_delete depth id s).2) as [L HL].
  { unfold mark_delete. apply only_marks_bind; [done| |].
    - unfold validated_id. destruct (validate_experiment_id id); apply only_marks_refl.
    - intros id' s1 Hnd1. apply only_marks_bind; [done| |].
      + destruct (ensure_indexes_run s1) as (s2 & Hrun & Hs2). rewrite Hrun.
        by apply only_marks_same.
      + intros _ s2 Hnd2. by apply _mark_delete_only_marks. }
  exists L. split; [exact HL|]. rewrite HL.
  split; [apply mark_all_ids|]. split; [intros p; apply mark_all_children|].
  intros j. rewrite record_of_mark_all.
  destruct (bool_decide (j ∈ L)); [by right | left].
  by destruct (record_of (stored s) j).
Qed.

(** ** Identifiers stay *)

Lemma update_one_ids (q fields : doc) (s : MLDB) :
  (stored (update_one q fields s).2).*1 = (stored s).*1.
Proof.
  unfold update_one, bind, send. simpl. destruct (query_ok q); [|done]. simpl.
  destruct (List.find _ _) as [r|]; [|done].
  destruct (set_allowed fields r); [|done]. simpl.
  apply alter_first_ids, apply_set_id.
Qed.

Lemma _update_ids (id : value) (fields : doc) (s : MLDB) :
  (stored (_update id fields s).2).*1 = (stored s).*1.
Proof.
  unfold _update, bind.
  pose proof (update_one_ids (<["_id" := id]> {["deleted" := ne_true]}) fields s) as Hids.
  destruct (update_one _ fields s) as [[n|e] s1]; simpl in *; [|done].
  by destruct (n <? 1)%nat.
Qed.

(** X16.  [update], [set_heartbeat] and [set_finished] never add, remove or
    re-key a document, however they end: the identifiers of the collection,
    in order, are the same afterwards. *)
Theorem updates_keep_identifiers (utcnow : Z) (id status : value)
    (doc_fields : option doc) (s : MLDB) :
  (stored (update id doc_fields s).2).*1 = (stored s).*1 ∧
  (stored (set_heartbeat utcnow id doc_fields s).2).*1 = (stored s).*1 ∧
  (stored (set_finished utcnow id status doc_fields s).2).*1 = (stored s).*1.
Proof.
  destruct (ensure_indexes_run s) as (s1 & Hrun & Hs1).
  split; [|split].
  - unfold update, bind, validated_id, validated_doc.
    destruct (validate_experiment_id id); [|done]. simpl.
    destruct (validate_experiment_doc _) as [fields|]; [|done]. simpl.
    rewrite Hrun. destruct (bool_decide (fields ≠ ∅)); [|simpl; by rewrite Hs1].
    by rewrite _update_ids, Hs1.
  - unfold set_heartbeat, bind, validated_doc.
    destruct (validate_experiment_doc _) as [fields|]; [|done]. simpl.
    rewrite Hrun. by rewrite _update_ids, Hs1.
  - unfold set_finished. destruct (bool_decide _); [done|].
    unfold bind, validated_doc.
    destruct (validate_experiment_doc _) as [fields|]; [|done]. simpl.
    rewrite Hrun. by rewrite _update_ids, Hs1.
Qed.

(** ** Soft delete, then hard delete *)

Lemma mapM_validated_ids (l : list oid) :
  (∀ j, validate_experiment_id (VId j) = Some j) →
  mapM validate_experiment_id (VId <$> l) = Some l.
Proof.
  intros Hoids. apply mapM_Some. induction l as [|j l IH]; [constructor|].
  rewrite fmap_cons. by constructor.
Qed.

Lemma filter_unmarked (l : list oid) (rs : list record) :
  filter (λ r, r.1 ∉ l) (mark_all l rs) = filter (λ r, r.1 ∉ l) rs.
Proof.
  induction rs as [|r rs IH]; [done|].
  change (mark_all l (r :: rs))
    with ((if bool_decide (r.1 ∈ l) then mark_deleted r else r) :: mark_all l rs).
  destruct (decide (r.1 ∈ l)) as [Hin|Hout].
  - rewrite bool_decide_eq_true_2 by done.
    rewrite !filter_cons_False by (simpl; by intros H; apply H). exact IH.
  - rewrite bool_decide_eq_false_2 by done.
    rewrite !filter_cons_True by done. by rewrite IH.
Qed.

(** X17.  The two phases together: [complete_deletion] on the list that
    [mark_delete] returned removes the target and its descendants and
    nothing else; the documents left are the other ones, as they were
    before the soft delete. *)
Theorem mark_then_complete_deletion (depth : nat) (id : value) (o : oid)
    (rank : oid → nat) (s : MLDB) :
  validate_experiment_id id = Some o →
  (∀ j, validate_experiment_id (VId j) = Some j) →
  o ∈ (stored s).*1 → NoDup (stored s).*1 → ranked (stored s) rank = true →
  rank o < depth →
  ∃ l s' n s'',
    mark_delete depth id s = (Ok (VId <$> l), s') ∧
    complete_deletion (VId <$> l) s' = (Ok n, s'') ∧
    stored s'' = filter (λ r, r.1 ∉ l) (stored s) ∧
    (∀ j, j ∈ l ↔ descendant (stored s) o j) ∧
    n + length (stored s'') = length (stored s).
Proof.
  intros Hid Hoids Hin Hnd Hranked Hrank.
  destruct (mark_delete_run depth id o rank s Hid Hin Hnd Hranked Hrank)
    as (l & s' & Hrun & Hs' & _ & Hiff).
  destruct (complete_deletion_run (VId <$> l) l s' (mapM_validated_ids l Hoids))
    as (n & s'' & Hdel & Hs'' & Hlen & _).
  { by rewrite Hs', mark_all_ids. }
  exists l, s', n, s''. split; [done|]. split; [done|].
  rewrite Hs', filter_unmarked in Hs''. split; [done|]. split; [done|].
  rewrite Hlen, Hs'. unfold mark_all. by rewrite length_fmap.
Qed.

(** ** Listing *)

Lemma iter_docs_state (filter : option doc) (skip limit : option N)
    (sort_by : option key_spec) (include_deleted : bool) (s : MLDB) :
  stored (iter_docs filter skip limit sort_by include_deleted s).2 = stored s.
Proof.
  unfold iter_docs, bind, validated_doc.
  destruct (validate_experiment_doc _) as [valid|]; [|done]. simpl.
  unfold to_list, bind, send. simpl.
  match goal with |- context [query_ok ?q] => destruct (query_ok q) end; done.
Qed.




(** The cursor [iter_docs] goes through: a [skip] or [limit] of zero is
    not handed to it, and counts as none. *)
Lemma iter_docs_cursor (filter : option doc) (skip limit : option N)
    (sort_by : option key_spec) (include_deleted : bool) (valid : doc) (s : MLDB) :
  validate_experiment_doc (dict_or_empty filter) = Some valid →
  iter_docs filter skip limit sort_by include_deleted s =
    bind (to_list (Cursor (if include_deleted then rename_key "id" "_id" valid
                           else <["deleted" := ne_true]> (rename_key "id" "_id" valid))
                          None (default [("heartbeat", DESCENDING)] sort_by)
                          (default 0%N skip) (default 0%N limit)))
         (λ found, ret ((λ d, from_database_experiment_doc (Some d)) <$> found)) s.
Proof.
  intros Hvalid. unfold iter_docs.
  rewrite (bind_ok _ _ _ _ _ (validated_doc_run _ _ s Hvalid)). simpl.
  destruct skip as [n|], limit as [m|]; simpl;
    try destruct (N.eqb_spec n 0) as [->|Hn];
    try destruct (N.eqb_spec m 0) as [->|Hm]; reflexivity.
Qed.



(** X19.  [iter_docs] reads and never writes, however it ends; every
    document it yields is a stored document, with its identifier under "id"
    and no "_id"; and it does yield, whenever the filter validates and the
    database accepts it. *)
Theorem iter_docs_yields_stored_documents (filter : option doc) (skip limit : option N)
    (sort_by : option key_spec) (include_deleted : bool) (s : MLDB) :
  stored (iter_docs filter skip limit sort_by include_deleted s).2 = stored s ∧
  (∀ out s',
     iter_docs filter skip limit sort_by include_deleted s = (Ok out, s') →
     ∀ y, y ∈ out →
       ∃ r, r ∈ stored s ∧ y = Some (<["id" := VId r.1]> (delete "_id" r.2))) ∧
  (∀ valid,
     validate_experiment_doc (dict_or_empty filter) = Some valid →
     query_ok (rename_key "id" "_id" valid) = true →
     ∃ out s', iter_docs filter skip limit sort_by include_deleted s = (Ok out, s')).
Proof.
  split; [apply iter_docs_state|]. split.
  - intros out s' Hrun y Hy.
    apply iter_docs_inv in Hrun as (valid & c & _ & _ & Hproj & _ & ->).
    apply list_elem_of_fmap in Hy as (d & -> & Hd).
    apply (cursor_result_elem _ _ _ Hproj) in Hd as (r & Hr & _ & ->).
    exists r. split; [done|]. simpl. f_equal.
    unfold rename_key, as_doc. by rewrite lookup_insert_eq, delete_insert_eq.
  - intros valid Hvalid Hok.
    rewrite (iter_docs_cursor _ _ _ _ _ _ _ Hvalid).
    erewrite bind_ok; [by eexists _, _|].
    apply to_list_run. simpl.
    destruct include_deleted; [done | by apply query_ok_excluding_deleted].
Qed.

(** ** Creation and the tree *)

(** X20.  [create], with fields that validate and a document the database
    stores as given, appends: the documents stored before are untouched and
    come first, and the new document becomes the last child of the
    experiment its validated [parent_id] names, and of no other. *)
Theorem create_appends_child (utcnow : Z) (name : value) (doc_fields : option doc)
    (fields : doc) (s : MLDB) :
  validate_experiment_doc (pop_experiment_id (dict_or_empty doc_fields)) = Some fields →
  fields !! "_id" = None →
  storable (<["name" := name]> fields) = true →
  ∃ o s' d,
    create utcnow name doc_fields s = (Ok (VId o), s') ∧
    stored s' = (stored s ++ [(o, d)])%list ∧
    (o ∉ (stored s).*1) ∧
    (∀ p, children_ids (stored s') p
          = (children_ids (stored s) p
               ++ if eq_match (fields !! "parent_id") (VId p) then [o] else [])%list).
Proof.
  intros Hvalid Hid Hsto.
  destruct (create_run utcnow name doc_fields fields s Hvalid Hid Hsto)
    as (s' & d & Hrun & Hstored & _ & _ & _ & _ & Hrest).
  exists (fresh_oid (stored s)), s', d.
  split; [done|]. split; [done|]. split; [apply fresh_oid_fresh|].
  intros p. rewrite Hstored. unfold children_ids.
  rewrite filter_app, fmap_app. f_equal.
  assert (is_child p (fresh_oid (stored s), d) = eq_match (fields !! "parent_id") (VId p))
    as Hchild by (unfold is_child; simpl; rewrite Hrest; [done | not_listed]).
  destruct (eq_match (fields !! "parent_id") (VId p)) eqn:Hp.
  - by rewrite filter_cons_True.
  - by rewrite filter_cons_False by (rewrite Hchild; done).
Qed.

(** X21.  When the field names are plain and the validated fields, or the
    [name] argument, hold an integer beyond eight bytes, [create] raises
    [OverflowError]: the driver cannot encode the document, and none is
    stored. *)
Theorem create_refuses_big_integers (utcnow : Z) (name : value)
    (doc_fields : option doc) (fields : doc) (s : MLDB) :
  validate_experiment_doc (pop_experiment_id (dict_or_empty doc_fields)) = Some fields →
  named_plainly (<["name" := name]> fields) = true →
  storable (<["name" := name]> fields) = false →
  ∃ s',
    create utcnow name doc_fields s = (Raise OverflowError, s') ∧
    stored s' = stored s.
Proof.
  intros Hvalid Hnames Hsto. unfold create.
  rewrite (bind_ok _ _ _ _ _ (validated_doc_run _ _ s Hvalid)).
  cbv zeta. rewrite !lookup_insert_ne by done.
  assert (∀ v, fields !! "start_time" = Some v → plain_names v = true) as Hstv.
  { intros v Hv. apply (named_plainly_lookup (<["name" := name]> fields) "start_time");
      [done|]. by rewrite lookup_insert_ne. }
  destruct (ensure_indexes_run s) as (s1 & Hrun & Hs1).
  destruct (fields !! "start_time") as [st|] eqn:Hst;
    destruct (fields !! "heartbeat") as [hb|] eqn:Hhb;
    rewrite ?lookup_insert_ne by done; rewrite ?Hhb;
    try (erewrite getitem_run by (by simplify_map_eq));
    rewrite !bind_ret; rewrite ?lookup_insert_ne by done;
    destruct (fields !! "status") as [status|] eqn:Hs;
    rewrite (bind_ok _ _ _ _ _ Hrun);
    (rewrite insert_one_overflow;
      [ by exists s1
      | repeat (apply named_plainly_insert; [done | first [done | by apply Hstv] | ]);
        exact Hnames
      | repeat (apply storable_insert_absent; [by simplify_map_eq|]); exact Hsto ]).
Qed.

End Store.

(** ** The theorems at work on the sample collection *)



Lemma create_then_get_witness :
  let given : doc :=
    {["id" := VId 1%N; "tags" := VList [VStr "a"]; "status" := VStr "RUNNING"]} in
  ∃ o s' s'' g,
    create sample_engine spec_validate_experiment_doc 100 (VStr "train-v2") (Some given)
           sample_store
      = (Ok (VId o), s') ∧
    (o ∉ (stored sample_store).*1) ∧
    get sample_engine spec_validate_experiment_id (VId o) s' = (Ok (Some g), s'') ∧
    g !! "id" = Some (VId o) ∧
    g !! "_id" = None ∧
    g !! "status" = Some (VStr "RUNNING") ∧
    g !! "start_time" = Some (VTime 100) ∧
    g !! "heartbeat" = g !! "start_time" ∧
    (g !! "deleted" = None ∨ g !! "deleted" = Some (VBool false)).
Proof.
  intros given.
  destruct (create_then_get sample_engine spec_validate_experiment_doc
              spec_validate_experiment_id 100 (VStr "train-v2") (Some given)
              {["tags" := VList [VStr "a"]; "status" := VStr "RUNNING"]} sample_store)
    as (o & s' & d & Hrun & _ & Hnew & _ & _ & _ & _ & _ & _ & _ & _ & Hget).
  - vm_compute. reflexivity.
  - reflexivity.
  - vm_compute. reflexivity.
  - intros o. reflexivity.
  - destruct Hget as (s'' & g & Hg & _ & Hid & H_id & Hstatus & Hst & Hhb & Hdel);
      [vm_compute; reflexivity|].
    exact (ex_intro _ o (ex_intro _ s' (ex_intro _ s'' (ex_intro _ g
             (conj Hrun (conj Hnew (conj Hg (conj Hid (conj H_id
                (conj (Hstatus (or_intror eq_refl))
                   (conj Hst (conj (Hhb (or_introl eq_refl))
                                   (Hdel (or_introl eq_refl)))))))))))))).
Defined.

(** C4 as stated fails: a valid creation that supplies [status], or a
    [heartbeat] apart from [start_time], is read back with those values. *)
Lemma create_then_get_counterexample :
  let given : doc :=
    {["status" := VStr "COMPLETED"; "start_time" := VTime 7; "heartbeat" := VTime 9]} in
  let created :=
    create sample_engine spec_validate_experiment_doc 100 (VStr "train-v2") (Some given)
           empty_store in
  let read := get sample_engine spec_validate_experiment_id (VId 1%N) created.2 in
  spec_validate_experiment_doc (pop_experiment_id (dict_or_empty (Some given))) = Some given ∧
  created.1 = Ok (VId 1%N) ∧
  let g : doc := <["id" := VId 1%N]> (<["name" := VStr "train-v2"]> given) in
  read.1 = Ok (Some g) ∧
  g !! "status" = Some (VStr "COMPLETED") ∧
  g !! "status" ≠ Some (VStr "RUNNING") ∧
  g !! "heartbeat" = Some (VTime 9) ∧
  g !! "start_time" = Some (VTime 7) ∧
  g !! "heartbeat" ≠ g !! "start_time".
Proof.
  intros given created read.
  split; [vm_compute; reflexivity|].
  split; [vm_compute; reflexivity|].
  split; [vm_compute; reflexivity|].
  split; [reflexivity|].
  split; [intros [=]|].
  split; [reflexivity|].
  split; [reflexivity|].
  intros [=].
Qed.

Lemma update_empty_is_noop_witness :
  ∃ s', update sample_engine spec_validate_experiment_doc spec_validate_experiment_id
               (VStr "000000000000000000000002") (Some {["id" := VId 2%N]}) sample_store
          = (Ok tt, s') ∧
        stored s' = stored sample_store.
Proof.
  apply (update_empty_is_noop sample_engine spec_validate_experiment_doc
           spec_validate_experiment_id
           (VStr "000000000000000000000002") 2%N).
  - reflexivity.
  - vm_compute. reflexivity.
Defined.



Lemma set_finished_checks_status_witness :
  let caller : doc := {["exit_code" := VInt 1; "heartbeat" := VTime 3]} in
  let kept : doc :=
    {["name" := VStr "train-v1"; "status" := VStr "RUNNING";
      "start_time" := VTime 10; "heartbeat" := VTime 40]} in
  set_finished sample_engine spec_validate_experiment_doc 100 (VId 1%N) (VStr "RUNNING")
               (Some caller) sample_store
    = (Raise ValueError, sample_store) ∧
  ∃ s' f',
    set_finished sample_engine spec_validate_experiment_doc 100 (VId 1%N) (VStr "FAILED")
                 (Some caller) sample_store
      = (Ok tt, s') ∧
    record_of (stored s') 1%N = Some f' ∧
    f' !! "stop_time" = Some (VTime 100) ∧
    f' !! "heartbeat" = Some (VTime 100) ∧
    f' !! "status" = Some (VStr "FAILED") ∧
    (∀ k, k ∉ ["stop_time"; "heartbeat"; "status"] →
          f' !! k = match caller !! k with Some v => Some v | None => kept !! k end).
Proof.
  intros caller kept. split.
  - apply (set_finished_checks_status sample_engine spec_validate_experiment_doc 100 (VId 1%N)
             (VStr "RUNNING") (Some caller) sample_store).
    not_listed.
  - pose proof (proj2 (proj2 (set_finished_checks_status sample_engine
                               spec_validate_experiment_doc 100 (VId 1%N)
                               (VStr "FAILED") (Some caller) sample_store))) as Hgood.
    apply (Hgood ltac:(listed) 1%N caller kept eq_refl).
    + vm_compute; reflexivity.
    + reflexivity.
    + vm_compute; reflexivity.
    + vm_compute; reflexivity.
    + reflexivity.
Defined.

Lemma complete_deletion_validates_first_witness :
  complete_deletion sample_engine spec_validate_experiment_id
                    [VId 1%N; VStr "not-an-id"; VId 2%N] sample_store
    = (Raise InvalidIdentifier, sample_store).
Proof.
  apply (complete_deletion_validates_first sample_engine spec_validate_experiment_id).
  exists (VStr "not-an-id"). split; [listed | reflexivity].
Defined.

Lemma complete_deletion_idempotent_witness :
  ∃ n s',
    complete_deletion sample_engine spec_validate_experiment_id
      [VId 2%N; VStr "000000000000000000000002"; VId 4%N; VId 9%N] sample_store
      = (Ok n, s') ∧
    stored s' = filter (λ r, r.1 ∉ [2%N; 2%N; 4%N; 9%N]) (stored sample_store) ∧
    n = length (filter (λ r, r.1 ∈ [2%N; 2%N; 4%N; 9%N]) (stored sample_store)) ∧
    n + length (stored s') = length (stored sample_store) ∧
    deletes_sent s' = length (remove_dups [2%N; 2%N; 4%N; 9%N]) + deletes_sent sample_store ∧
    ∃ s'', complete_deletion sample_engine spec_validate_experiment_id
             [VId 2%N; VStr "000000000000000000000002"; VId 4%N; VId 9%N] s'
             = (Ok 0, s'') ∧
           stored s'' = stored s'.
Proof.
  apply (complete_deletion_idempotent sample_engine spec_validate_experiment_id
           [VId 2%N; VStr "000000000000000000000002"; VId 4%N; VId 9%N]
           [2%N; 2%N; 4%N; 9%N] sample_store).
  - reflexivity.
  - refine (bool_decide_unpack _ _). vm_compute. exact I.
Defined.

Example complete_deletion_sample :
  (complete_deletion sample_engine spec_validate_experiment_id
     [VId 2%N; VStr "000000000000000000000002"; VId 4%N; VId 9%N] sample_store).1
  = Ok 2.
Proof. vm_compute. reflexivity. Qed.


(** The live experiments with a positive exit code, by heartbeat. *)
Example iter_docs_range_sample :
  ((λ y : option doc, y ≫= (.!! "id")) <$>
     match (iter_docs sample_engine spec_validate_experiment_doc
              (Some {["exit_code" := VDoc [("$gt", VInt 0)]]}) None None None false
              (store_of finished_records)).1 with
     | Ok out => out
     | Raise _ => []
     end)
  = [Some (VId 4%N); Some (VId 2%N)].
Proof. vm_compute. reflexivity. Qed.

Example iter_docs_sample :
  ((λ y : option doc, y ≫= (.!! "id")) <$>
     match (iter_docs sample_engine spec_validate_experiment_doc None None None None false
              sample_store).1 with
     | Ok out => out
     | Raise _ => []
     end)
  = [Some (VId 3%N); Some (VId 1%N); Some (VId 2%N); Some (VId 4%N)].
Proof. vm_compute. reflexivity. Qed.

Lemma mark_delete_cascade_witness :
  (∃ s', mark_delete sample_engine spec_validate_experiment_id 5 (VId 9%N) sample_store
           = (Ok [], s') ∧
         stored s' = stored sample_store) ∧
  (∃ l s',
     mark_delete sample_engine spec_validate_experiment_id 5 (VStr "000000000000000000000001")
                 sample_store = (Ok (VId <$> l), s') ∧
     preorder (stored sample_store) 1%N l ∧
     head l = Some 1%N ∧
     (∀ j, j ∈ l ↔ descendant (stored sample_store) 1%N j) ∧
     stored s' = mark_all l (stored sample_store) ∧
     (∀ j f, j ∈ l → record_of (stored s') j = Some f →
             f !! "deleted" = Some (VBool true))).
Proof.
  split.
  - apply (mark_delete_cascade sample_engine spec_validate_experiment_id 5 (VId 9%N) 9%N
             sample_store
             eq_refl).
    + intros Hin. vm_compute in Hin.
      repeat (apply elem_of_cons in Hin as [Hin|Hin]; [discriminate Hin|]).
      by apply elem_of_nil in Hin.
    + lia.
  - apply (mark_delete_cascade sample_engine spec_validate_experiment_id 5
             (VStr "000000000000000000000001") 1%N sample_store eq_refl)
      with (rank := λ o : oid, 5 - N.to_nat o).
    + listed.
    + refine (bool_decide_unpack _ _). vm_compute. exact I.
    + vm_compute. reflexivity.
    + vm_compute. lia.
Defined.

(** The visit of the sample collection from experiment 1. *)
Example mark_delete_sample :
  (mark_delete sample_engine spec_validate_experiment_id 5 (VId 1%N) sample_store).1
  = Ok [VId 1%N; VId 2%N; VId 4%N; VId 3%N].
Proof. vm_compute. reflexivity. Qed.

(** On a cycle of [parent_id] links the visit never ends by itself: whatever
    the allowed depth, the interpreter ends it with [RecursionError]. *)
Lemma _mark_delete_on_cycle (db : engine) (depth : nat) (s : MLDB) :
  stored s = cyclic_records ∨ stored s = mark_all [1%N] cyclic_records →
  (_mark_delete db depth (VId 1%N) s).1 = Raise RecursionError.
Proof.
  revert s. induction depth as [|depth IH]; intros s Hs; [done|].
  assert (mark_all [1%N] (stored s) = mark_all [1%N] cyclic_records) as Hmarked.
  { destruct Hs as [-> | ->]; [done|]. by rewrite mark_all_app, <- mark_all_app. }
  assert (NoDup (stored s).*1 ∧ 1%N ∈ (stored s).*1) as [Hnd Hin].
  { destruct Hs as [-> | ->]; rewrite ?mark_all_ids;
      (split; [refine (bool_decide_unpack _ _); vm_compute; exact I | listed]). }
  cbn [_mark_delete].
  rewrite (bind_ok _ _ _ _ _ (mark_one_run db 1%N s Hnd Hin)).
  change (0 <? 1)%nat with true. cbv iota.
  destruct (children_run db 1%N (with_documents (mark_all [1%N] (stored s))
                                              (sent update_one_cmd s)))
    as (cdocs & Hfind & Hcdocs).
  rewrite (bind_ok _ _ _ _ _ Hfind).
  rewrite stored_with_documents, Hmarked in Hcdocs.
  change (children_ids (mark_all [1%N] cyclic_records) 1%N) with [1%N] in Hcdocs.
  apply Forall2_cons_inv_r in Hcdocs as (cd & cdocs' & Hcd & Hnil & ->).
  apply Forall2_nil_inv_r in Hnil as ->.
  cbn [for_each]. rewrite (getitem_run _ _ _ Hcd), bind_ret.
  specialize (IH (sent find_cmd (with_documents (mark_all [1%N] (stored s))
                                                (sent update_one_cmd s)))).
  destruct (_mark_delete db depth (VId 1%N) _) as [[l|e] s'] eqn:Hcall;
    simpl in IH; [by discriminate IH; right|].
  rewrite (bind_raise _ _ _ _ _ (bind_raise _ _ _ _ _ Hcall)). simpl.
  apply IH. right. by rewrite stored_sent, stored_with_documents.
Qed.

Lemma mark_delete_on_cycle (depth : nat) :
  (mark_delete sample_engine spec_validate_experiment_id depth (VId 1%N)
               (store_of cyclic_records)).1
  = Raise RecursionError.
Proof.
  unfold mark_delete.
  rewrite (bind_ok _ _ _ _ _
             (validated_id_run spec_validate_experiment_id (VId 1%N) 1%N
                               (store_of cyclic_records) eq_refl)).
  destruct (ensure_indexes_run (store_of cyclic_records)) as (s1 & Hens & Hs1).
  rewrite (bind_ok _ _ _ _ _ Hens). apply _mark_delete_on_cycle. by left.
Qed.

(** ** Further properties at work on the sample collection *)

Lemma pop_experiment_id_strips_witness :
  pop_experiment_id {["id" := VInt 1; "_id" := VInt 2; "name" := VStr "a"]} !! "name"
    = Some (VStr "a").
Proof.
  destruct (pop_experiment_id_strips
              {["id" := VInt 1; "_id" := VInt 2; "name" := VStr "a"]})
    as (_ & _ & Hother & _).
  rewrite (Hother "name"); [reflexivity | discriminate | discriminate].
Defined.

Lemma renames_drop_the_other_key_witness :
  let d : doc := {["id" := VId 7%N; "_id" := VId 8%N; "name" := VStr "a"]} in
  from_database_experiment_doc (to_database_experiment_doc (Some d))
    = Some (delete "_id" d) ∧
  to_database_experiment_doc (from_database_experiment_doc (Some d))
    = Some (delete "id" d).
Proof.
  intros d. split.
  - apply (renames_drop_the_other_key d). by eexists.
  - apply (renames_drop_the_other_key d). by eexists.
Defined.

Lemma malformed_identifier_refused_witness :
  get sample_engine spec_validate_experiment_id (VStr "xyz") sample_store
    = (Raise InvalidIdentifier, sample_store) ∧
  update sample_engine spec_validate_experiment_doc spec_validate_experiment_id (VStr "xyz")
         (Some {["name" := VStr "a"]}) sample_store
    = (Raise InvalidIdentifier, sample_store) ∧
  mark_delete sample_engine spec_validate_experiment_id 5 (VStr "xyz") sample_store
    = (Raise InvalidIdentifier, sample_store).
Proof.
  apply (malformed_identifier_refused sample_engine spec_validate_experiment_doc
           spec_validate_experiment_id (VStr "xyz")).
  reflexivity.
Defined.

Lemma invalid_fields_refused_witness :
  create sample_engine spec_validate_experiment_doc 100 (VStr "a")
         (Some {["status" := VStr "PAUSED"]}) sample_store
    = (Raise ValidationError, sample_store) ∧
  update sample_engine spec_validate_experiment_doc spec_validate_experiment_id (VId 1%N)
         (Some {["status" := VStr "PAUSED"]}) sample_store
    = (Raise ValidationError, sample_store) ∧
  iter_docs sample_engine spec_validate_experiment_doc
            (Some {["status" := VStr "PAUSED"]}) None None None false sample_store
    = (Raise ValidationError, sample_store).
Proof.
  destruct (invalid_fields_refused sample_engine spec_validate_experiment_doc
              spec_validate_experiment_id 100 (VStr "a") (VId 1%N) (VStr "FAILED") 1%N
              (Some {["status" := VStr "PAUSED"]}) None None None false sample_store)
    as [Hfields Hfilter].
  destruct Hfields as (Hcreate & Hupdate & _); [vm_compute; reflexivity|].
  split; [exact Hcreate|]. split; [exact (Hupdate eq_refl)|].
  apply Hfilter. vm_compute. reflexivity.
Defined.

Lemma get_finds_live_documents_witness :
  (get sample_engine spec_validate_experiment_id (VStr "000000000000000000000002") sample_store).1
    = Ok (Some (<["id" := VId 2%N]>
                  (delete "_id"
                     ({["name" := VStr "train-v1-fold0"; "parent_id" := VId 1%N;
                        "status" := VStr "RUNNING"; "heartbeat" := VTime 30]} : doc)))) ∧
  (get sample_engine spec_validate_experiment_id (VId 5%N) sample_store).1 = Ok None.
Proof.
  split.
  - apply (get_finds_live_documents sample_engine spec_validate_experiment_id
             (VStr "000000000000000000000002") 2%N sample_store eq_refl).
    + vm_compute. reflexivity.
    + reflexivity.
  - apply (get_finds_live_documents sample_engine spec_validate_experiment_id
             (VId 5%N) 5%N sample_store eq_refl).
    intros r Hr Ho.
    repeat (apply elem_of_cons in Hr as [->|Hr]; [first [discriminate Ho | reflexivity]|]).
    by apply elem_of_nil in Hr.
Defined.

Lemma update_merges_fields_witness :
  let fields : doc := {["status" := VStr "FAILED"]} in
  let f : doc := {["name" := VStr "train-v1-fold0"; "parent_id" := VId 1%N;
                   "status" := VStr "RUNNING"; "heartbeat" := VTime 30]} in
  ∃ s',
    update sample_engine spec_validate_experiment_doc spec_validate_experiment_id (VId 2%N)
           (Some {["status" := VStr "FAILED"; "id" := VInt 0]}) sample_store
      = (Ok tt, s') ∧
    record_of (stored s') 2%N = Some (fields ∪ f) ∧
    record_of (stored s') 1%N = record_of (stored sample_store) 1%N.
Proof.
  intros fields f.
  destruct (update_merges_fields sample_engine spec_validate_experiment_doc
              spec_validate_experiment_id (VId 2%N) 2%N
              (Some {["status" := VStr "FAILED"; "id" := VInt 0]}) fields f sample_store)
    as (s' & Hrun & Hnew & _ & _ & Hother & _).
  - reflexivity.
  - vm_compute. reflexivity.
  - discriminate.
  - reflexivity.
  - vm_compute. reflexivity.
  - vm_compute. reflexivity.
  - reflexivity.
  - exact (ex_intro _ s' (conj Hrun (conj Hnew (Hother 1%N ltac:(discriminate))))).
Defined.

Lemma set_heartbeat_forces_heartbeat_witness :
  ∃ s' f',
    set_heartbeat sample_engine spec_validate_experiment_doc 100 (VId 1%N)
                  (Some {["heartbeat" := VTime 3]}) sample_store = (Ok tt, s') ∧
    record_of (stored s') 1%N = Some f' ∧
    f' !! "heartbeat" = Some (VTime 100).
Proof.
  destruct (set_heartbeat_forces_heartbeat sample_engine spec_validate_experiment_doc 100 1%N
              (Some {["heartbeat" := VTime 3]}) {["heartbeat" := VTime 3]}
              {["name" := VStr "train-v1"; "status" := VStr "RUNNING";
                "start_time" := VTime 10; "heartbeat" := VTime 40]} sample_store)
    as (s' & f' & Hrun & Hrec & Hhb & _).
  - vm_compute. reflexivity.
  - reflexivity.
  - vm_compute. reflexivity.
  - vm_compute. reflexivity.
  - reflexivity.
  - exact (ex_intro _ s' (ex_intro _ f' (conj Hrun (conj Hrec Hhb)))).
Defined.



Lemma ensure_mongo_indexes_creates_missing_witness :
  let indexes : list key_spec := [[("name", ASCENDING)]; [("_id", ASCENDING)]] in
  ∃ s',
    ensure_mongo_indexes indexes empty_store = (Ok tt, s') ∧
    index_keys (_collection s') = [[("_id", ASCENDING)]; [("name", ASCENDING)]] ∧
    commands (_collection s') = [index_information_cmd; create_indexes_cmd] ∧
    ensure_mongo_indexes [] s' = (Ok tt, s') ∧
    ∃ s'', ensure_mongo_indexes indexes s' = (Ok tt, s'') ∧
           s'' = sent index_information_cmd s'.
Proof.
  intros indexes.
  destruct (ensure_mongo_indexes_creates_missing indexes empty_store)
    as (s' & Hrun & Hkeys & Hall & _ & _ & _ & Hcmds).
  destruct (ensure_mongo_indexes_creates_missing [] s')
    as (s0 & Hrun0 & _ & _ & _ & Hnone & _).
  destruct (ensure_mongo_indexes_creates_missing indexes s')
    as (s'' & Hrun2 & _ & _ & _ & _ & Hpresent & _).
  exists s'. split; [exact Hrun|]. split; [exact Hkeys|].
  split.
  { apply Hcmds. intros Hforall. apply Forall_cons in Hforall as [Hname _].
    vm_compute in Hname.
    repeat (apply elem_of_cons in Hname as [Hname|Hname]; [discriminate Hname|]).
    by apply elem_of_nil in Hname. }
  split; [by rewrite Hrun0, (Hnone eq_refl)|].
  exists s''. split; [exact Hrun2|]. apply Hpresent; [discriminate|].
  apply Forall_forall. exact Hall.
Defined.

Lemma ensure_indexes_once_witness :
  ∃ s',
    ensure_indexes empty_store = (Ok tt, s') ∧
    [("heartbeat", DESCENDING)] ∈ index_keys (_collection s') ∧
    ensure_indexes s' = (Ok tt, s').
Proof.
  destruct (ensure_indexes_once empty_store)
    as (s' & Hrun & _ & _ & Hkeys & _ & Hagain).
  exists s'. split; [exact Hrun|]. split; [|exact Hagain].
  apply (Hkeys eq_refl). unfold required_indexes. listed.
Defined.

Lemma get_after_mark_delete_witness :
  ∃ l s',
    mark_delete sample_engine spec_validate_experiment_id 5 (VId 2%N) sample_store
      = (Ok (VId <$> l), s') ∧
    (∀ j, j ∈ l → (get sample_engine spec_validate_experiment_id (VId j) s').1 = Ok None) ∧
    (∀ j, j ∉ l → (get sample_engine spec_validate_experiment_id (VId j) s').1
                   = (get sample_engine spec_validate_experiment_id (VId j) sample_store).1).
Proof.
  apply (get_after_mark_delete sample_engine spec_validate_experiment_id 5 (VId 2%N) 2%N
           (λ o : oid, 5 - N.to_nat o) sample_store eq_refl).
  - intros j. reflexivity.
  - listed.
  - refine (bool_decide_unpack _ _). vm_compute. exact I.
  - vm_compute. reflexivity.
  - vm_compute. lia.
Defined.

Lemma mark_delete_twice_witness :
  ∃ l s' s'',
    mark_delete sample_engine spec_validate_experiment_id 5 (VId 1%N) sample_store
      = (Ok (VId <$> l), s') ∧
    mark_delete sample_engine spec_validate_experiment_id 5 (VId 1%N) s'
      = (Ok (VId <$> l), s'') ∧
    stored s'' = stored s'.
Proof.
  apply (mark_delete_twice sample_engine spec_validate_experiment_id 5 (VId 1%N) 1%N
           (λ o : oid, 5 - N.to_nat o) sample_store eq_refl).
  - listed.
  - refine (bool_decide_unpack _ _). vm_compute. exact I.
  - vm_compute. reflexivity.
  - vm_compute. lia.
Defined.

Lemma mark_delete_only_sets_flags_witness :
  let s := store_of cyclic_records in
  let s' := (mark_delete sample_engine spec_validate_experiment_id 3 (VId 1%N) s).2 in
  ∃ L,
    stored s' = mark_all L (stored s) ∧
    (stored s').*1 = (stored s).*1 ∧
    (∀ p, children_ids (stored s') p = children_ids (stored s) p) ∧
    (∀ j, record_of (stored s') j = record_of (stored s) j ∨
          record_of (stored s') j = <["deleted" := VBool true]> <$> record_of (stored s) j).
Proof.
  intros s s'.
  apply (mark_delete_only_sets_flags sample_engine spec_validate_experiment_id 3 (VId 1%N) s).
  refine (bool_decide_unpack _ _). vm_compute. exact I.
Defined.

Lemma mark_then_complete_deletion_witness :
  ∃ l s' n s'',
    mark_delete sample_engine spec_validate_experiment_id 5 (VId 2%N) sample_store
      = (Ok (VId <$> l), s') ∧
    complete_deletion sample_engine spec_validate_experiment_id (VId <$> l) s' = (Ok n, s'') ∧
    stored s'' = filter (λ r, r.1 ∉ l) (stored sample_store) ∧
    (∀ j, j ∈ l ↔ descendant (stored sample_store) 2%N j) ∧
    n + length (stored s'') = length (stored sample_store).
Proof.
  apply (mark_then_complete_deletion sample_engine spec_validate_experiment_id 5 (VId 2%N) 2%N
           (λ o : oid, 5 - N.to_nat o) sample_store eq_refl).
  - intros j. reflexivity.
  - listed.
  - refine (bool_decide_unpack _ _). vm_compute. exact I.
  - vm_compute. reflexivity.
  - vm_compute. lia.
Defined.

(** The two phases on the sample collection, from experiment 2. *)
Example mark_then_complete_deletion_sample :
  let marked := mark_delete sample_engine spec_validate_experiment_id 5 (VId 2%N) sample_store in
  marked.1 = Ok [VId 2%N; VId 4%N] ∧
  let removed :=
    complete_deletion sample_engine spec_validate_experiment_id [VId 2%N; VId 4%N]
                      marked.2 in
  removed.1 = Ok 2 ∧ (stored removed.2).*1 = [1%N; 3%N; 5%N].
Proof. vm_compute. repeat split. Qed.


(** The second and third of the live sample documents, by heartbeat. *)
Example iter_docs_window_sample :
  ((λ y : option doc, y ≫= (.!! "id")) <$>
     match (iter_docs sample_engine spec_validate_experiment_doc None (Some 1%N) (Some 2%N)
                      None false
                      sample_store).1 with
     | Ok out => out
     | Raise _ => []
     end)
  = [Some (VId 1%N); Some (VId 2%N)].
Proof. vm_compute. reflexivity. Qed.

Lemma iter_docs_yields_stored_documents_witness :
  ∃ out s',
    iter_docs sample_engine spec_validate_experiment_doc None None None None true sample_store
      = (Ok out, s') ∧
    stored s' = stored sample_store ∧
    ∀ y, y ∈ out →
      ∃ r, r ∈ stored sample_store ∧ y = Some (<["id" := VId r.1]> (delete "_id" r.2)).
Proof.
  destruct (iter_docs_yields_stored_documents sample_engine spec_validate_experiment_doc
              None None None None true sample_store) as (Hstate & Hstored & _).
  destruct (iter_docs sample_engine spec_validate_experiment_doc None None None None true
                      sample_store)
    as [[out|e] s'] eqn:Hrun.
  - exists out, s'. split; [reflexivity|]. split; [exact Hstate|].
    exact (Hstored out s' eq_refl).
  - vm_compute in Hrun. discriminate Hrun.
Defined.

Lemma create_appends_child_witness :
  ∃ o s' d,
    create sample_engine spec_validate_experiment_doc 100 (VStr "train-v1-fold2")
           (Some {["parent_id" := VId 1%N]}) sample_store = (Ok (VId o), s') ∧
    stored s' = (stored sample_store ++ [(o, d)])%list ∧
    (o ∉ (stored sample_store).*1) ∧
    (∀ p, children_ids (stored s') p
          = (children_ids (stored sample_store) p
               ++ if eq_match (({["parent_id" := VId 1%N]} : doc) !! "parent_id") (VId p)
                  then [o] else [])%list).
Proof.
  apply (create_appends_child sample_engine spec_validate_experiment_doc 100
           (VStr "train-v1-fold2")
           (Some {["parent_id" := VId 1%N]}) {["parent_id" := VId 1%N]} sample_store).
  - vm_compute. reflexivity.
  - reflexivity.
  - vm_compute. reflexivity.
Defined.

Lemma create_refuses_big_integers_witness :
  ∃ s',
    create sample_engine spec_validate_experiment_doc 100 (VStr "train-v2")
           (Some {["exit_code" := VInt (2 ^ 63)]}) sample_store
      = (Raise OverflowError, s') ∧
    stored s' = stored sample_store.
Proof.
  apply (create_refuses_big_integers sample_engine spec_validate_experiment_doc 100
           (VStr "train-v2") (Some {["exit_code" := VInt (2 ^ 63)]})
           {["exit_code" := VInt (2 ^ 63)]} sample_store).
  - vm_compute. reflexivity.
  - vm_compute. reflexivity.
  - vm_compute. reflexivity.
Defined.
